(** * PromtSpace: search, navigation and detail overlay

    A shallow embedding of the two servers ([src/server.js],
    [src/portal/server.js]) and of the two front ends (the React [App]
    component and [src/portal/public/js/app.js]), with the properties of
    the search endpoint, of the navigation state machine, of the cache and
    of the detail overlay.

    Conventions of the embedding.
    - A JavaScript string is a [string]; its [length] is [String.length].
      Case mapping and white space are those of the ASCII range.
    - Reading a file and [JSON.parse] are separate steps, both of which can
      throw; a parsed document is a value of a small sum type with one
      constructor per shape of file found under [data/].
    - A handler runs in a monad that carries the file system, the log of
      accesses made to it, and an exception.
    - The prompts and categories held by the files have the fields that
      [src/types.ts] and the handlers name; a plain object used as a
      table is the finite map of its own keys. *)

From Stdlib Require Import Ascii String.
From stdpp Require Import base option list gmap strings pretty.

Set Default Proof Using "Type".

(** ** JavaScript strings *)

Module JsString.

(** [String.prototype.toLowerCase], on one code unit. *)
Definition toLowerChar (c : ascii) : ascii :=
  let n := nat_of_ascii c in
  if (65 <=? n) && (n <=? 90) then ascii_of_nat (n + 32) else c.

Fixpoint toLowerCase (s : string) : string :=
  match s with
  | EmptyString => EmptyString
  | String c s' => String (toLowerChar c) (toLowerCase s')
  end.

(** [s.startsWith(p)] *)
Fixpoint startsWith (s p : string) : bool :=
  match p, s with
  | EmptyString, _ => true
  | String _ _, EmptyString => false
  | String a p', String b s' => bool_decide (a = b) && startsWith s' p'
  end.

(** [s.includes(sub)]: [sub] occurs in [s] at some position. *)
Fixpoint includes (s sub : string) : bool :=
  startsWith s sub ||
  match s with
  | EmptyString => false
  | String _ s' => includes s' sub
  end.

(** [s.endsWith(p)] *)
Definition endsWith (s p : string) : bool :=
  startsWith (String.rev s) (String.rev p).

Fixpoint trimStart (s : string) : string :=
  match s with
  | EmptyString => EmptyString
  | String c s' => if Ascii.is_space c then trimStart s' else s
  end.

Definition trimEnd (s : string) : string :=
  String.rev (trimStart (String.rev s)).

(** [s.trim()] *)
Definition trim (s : string) : string := trimEnd (trimStart s).

(** A string in a boolean context: only the empty string is falsy. *)
Definition truthy (s : string) : bool := negb (bool_decide (s = "")).

(** Every character of [s] is white space. *)
Fixpoint blank (s : string) : bool :=
  match s with
  | EmptyString => true
  | String c s' => Ascii.is_space c && blank s'
  end.

(** [needle] is a substring of [hay]. *)
Definition occurs_in (needle hay : string) : Prop :=
  ∃ pre post, hay = pre +:+ needle +:+ post.

(** [q] is contained in [s], case-insensitively. *)
Definition ci_contains (q s : string) : Prop :=
  occurs_in (toLowerCase q) (toLowerCase s).

End JsString.

Import JsString.

(** ** The file system seen by a request handler *)

Module Fs.

(** What a file holds: text that [JSON.parse] rejects, or a document. *)
Inductive file (D : Type) : Type :=
| Garbled
| Json (d : D).
Arguments Garbled {D}.
Arguments Json {D} d.

Record world (D : Type) : Type := World {
  files : gmap string (file D);
  dirs : gmap string (list string)
}.
Arguments World {D} files dirs.
Arguments files {D} w.
Arguments dirs {D} w.

Inductive access : Type :=
| ReadFile (path : string)
| ExistsSync (path : string)
| ReadDir (path : string).

(** A computation over the file system: [None] is a thrown exception; the
    list is the log of the accesses made so far, the latest last. *)
Definition IO (D A : Type) : Type :=
  world D → list access → option A * list access.

Section Monad.
Context {D : Type}.

Definition ret {A} (a : A) : IO D A := λ _ log, (Some a, log).

Definition bind {A B} (m : IO D A) (k : A → IO D B) : IO D B :=
  λ w log,
    match m w log with
    | (Some a, log') => k a w log'
    | (None, log') => (None, log')
    end.

Definition throw {A} : IO D A := λ _ log, (None, log).

(** [try { m } catch { handler }] *)
Definition try_catch {A} (m handler : IO D A) : IO D A :=
  λ w log,
    match m w log with
    | (Some a, log') => (Some a, log')
    | (None, log') => handler w log'
    end.

(** [fs.readFile(path, 'utf-8')] and [fs.readFileSync(path, 'utf8')] *)
Definition readFile (path : string) : IO D (file D) :=
  λ w log,
    match files w !! path with
    | Some c => (Some c, log ++ [ReadFile path])
    | None => (None, log ++ [ReadFile path])
    end.

(** [fs.existsSync(path)] *)
Definition existsSync (path : string) : IO D bool :=
  λ w log,
    (Some (bool_decide (is_Some (files w !! path))),
     log ++ [ExistsSync path]).

(** [fs.readdirSync(path)] *)
Definition readdirSync (path : string) : IO D (list string) :=
  λ w log,
    match dirs w !! path with
    | Some names => (Some names, log ++ [ReadDir path])
    | None => (None, log ++ [ReadDir path])
    end.

(** [JSON.parse(data)] *)
Definition JSON_parse (data : file D) : IO D D :=
  match data with
  | Json d => ret d
  | Garbled => throw
  end.

(** A property access that throws a [TypeError] when absent. *)
Definition required {A} (o : option A) : IO D A :=
  match o with
  | Some a => ret a
  | None => throw
  end.

(** A computation only adds to the log of accesses. *)
Definition appends {A} (m : IO D A) : Prop :=
  ∀ w log, ∃ more, snd (m w log) = log ++ more.

(** Run a handler on a world, from an empty log. *)
Definition run {A} (m : IO D A) (w : world D) : option A * list access :=
  m w [].

End Monad.

Global Instance IO_ret D : MRet (IO D) := λ A, @ret D A.
Global Instance IO_bind D : MBind (IO D) := λ A B k m, @bind D A B m k.

End Fs.

Import Fs.

(** ** The data model ([src/types.ts]) *)

Record Category : Type := {
  cat_id : string;
  cat_name : string;
  cat_description : string;
  iconName : string;
  promptCount : nat;
  gradient : string
}.

Record Prompt : Type := {
  id : string;
  categoryId : string;
  title : string;
  shortDescription : string;
  fullDescription : option string;
  content : option string;
  tags : list string
}.

Global Instance Category_eq_dec : EqDecision Category.
Proof. solve_decision. Defined.

Global Instance Prompt_eq_dec : EqDecision Prompt.
Proof. solve_decision. Defined.

(** ** The ESM server ([src/server.js]) *)

Module Server.

(** The shapes of the files under [data/]: [categories.json] is an array
    of categories, [categories/<id>.json] an object with a [prompts]
    array, [prompts/<id>.json] one prompt. *)
Inductive Doc : Type :=
| CategoriesDoc (categories : list Category)
| CategoryDoc (prompts : list Prompt)
| PromptDoc (prompt : Prompt).

Inductive Body : Type :=
| JsonDoc (d : Doc)
| JsonPrompts (results : list Prompt)
| JsonError (error : string).

Record Response : Type := { status : nat; body : Body }.

(** [res.json(b)] and [res.status(n).json(b)] *)
Definition json (b : Body) : Response := {| status := 200; body := b |}.
Definition status_json (n : nat) (b : Body) : Response :=
  {| status := n; body := b |}.

Definition categoriesPath : string := "data/categories.json".
Definition categoryPath (id : string) : string :=
  "data/categories/" +:+ id +:+ ".json".
Definition promptPath (id : string) : string :=
  "data/prompts/" +:+ id +:+ ".json".

(** [for (const category of categories)]: only an array is iterable. *)
Definition iterate (d : Doc) : option (list Category) :=
  match d with
  | CategoriesDoc cs => Some cs
  | _ => None
  end.

(** [const { prompts } = doc; allPrompts.push(...prompts)]: spreading
    [undefined] throws. *)
Definition spread_prompts (d : Doc) : option (list Prompt) :=
  match d with
  | CategoryDoc ps => Some ps
  | _ => None
  end.

(** [GET /api/categories] *)
Definition getCategories : IO Doc Response :=
  try_catch
    (data ← readFile categoriesPath;
     doc ← JSON_parse data;
     mret (json (JsonDoc doc)))
    (mret (status_json 500 (JsonError "Failed to load categories"))).

(** [GET /api/categories/:id] *)
Definition getCategory (id : string) : IO Doc Response :=
  try_catch
    (data ← readFile (categoryPath id);
     doc ← JSON_parse data;
     mret (json (JsonDoc doc)))
    (mret (status_json 404 (JsonError "Category not found"))).

(** [GET /api/prompts/:id] *)
Definition getPrompt (id : string) : IO Doc Response :=
  try_catch
    (data ← readFile (promptPath id);
     doc ← JSON_parse data;
     mret (json (JsonDoc doc)))
    (mret (status_json 404 (JsonError "Prompt not found"))).

(** The body of the loop over the categories: the file of one category
    is read inside its own [try]; on failure nothing is pushed. *)
Definition pushCategory (allPrompts : list Prompt) (category : Category)
  : IO Doc (list Prompt) :=
  try_catch
    (categoryData ← readFile (categoryPath (cat_id category));
     doc ← JSON_parse categoryData;
     prompts ← required (spread_prompts doc);
     mret (allPrompts ++ prompts))
    (mret allPrompts).

Fixpoint collectPrompts (categories : list Category)
    (allPrompts : list Prompt) : IO Doc (list Prompt) :=
  match categories with
  | [] => mret allPrompts
  | category :: rest =>
      allPrompts' ← pushCategory allPrompts category;
      collectPrompts rest allPrompts'
  end.

(** The predicate given to [allPrompts.filter]. *)
Definition matchesQuery (query : string) (prompt : Prompt) : bool :=
  let titleMatch := includes (toLowerCase (title prompt)) query in
  let descMatch := includes (toLowerCase (shortDescription prompt)) query in
  let tagMatch :=
    existsb (λ tag, includes (toLowerCase tag) query) (tags prompt) in
  titleMatch || descMatch || tagMatch.

(** [GET /api/search]; [q] is [req.query.q]. *)
Definition search (q : option string) : IO Doc Response :=
  try_catch
    (let query := toLowerCase <$> q in
     match query with
     | None => mret (json (JsonPrompts []))
     | Some query =>
         if negb (truthy query) || (String.length query <? 2)
         then mret (json (JsonPrompts []))
         else
           categoriesData ← readFile categoriesPath;
           doc ← JSON_parse categoriesData;
           categories ← required (iterate doc);
           allPrompts ← collectPrompts categories [];
           let results := List.filter (matchesQuery query) allPrompts in
           mret (json (JsonPrompts results))
     end)
    (mret (status_json 500 (JsonError "Search failed"))).

(** The prompts that the file of a category contributes to a search:
    those it lists when it can be read and parsed, none otherwise. *)
Definition readablePrompts (w : world Doc) (category : Category)
  : list Prompt :=
  match files w !! categoryPath (cat_id category) with
  | Some (Json (CategoryDoc ps)) => ps
  | _ => []
  end.

(** The backing collection, in storage order: the categories in the
    order of [categories.json], the prompts of each in the order of its
    file. *)
Definition collection (w : world Doc) (categories : list Category)
  : list Prompt :=
  flat_map (readablePrompts w) categories.

(** A category whose file is missing, is not JSON, or has no [prompts]. *)
Definition unreadable (w : world Doc) (category : Category) : Prop :=
  ∀ ps, files w !! categoryPath (cat_id category) ≠ Some (Json (CategoryDoc ps)).

(** What the specification asks of a prompt for it to be a result. *)
Definition containsQuery (q : string) (p : Prompt) : Prop :=
  ci_contains q (title p) ∨ ci_contains q (shortDescription p) ∨
  ∃ tag, tag ∈ tags p ∧ ci_contains q tag.

End Server.

(** ** The portal server ([src/portal/server.js]) *)

Module Portal.

Record PCategory : Type := {
  pc_id : string;
  pc_name : string;
  pc_image : string;
  pc_promptCount : nat
}.

(** An entry of a category listing. *)
Record PSummary : Type := {
  ps_id : string;
  ps_title : string;
  ps_description : string
}.

(** A file of [data/prompts]; [pp_prompt] is the text of the template. *)
Record PPrompt : Type := {
  pp_id : string;
  pp_categoryId : string;
  pp_title : string;
  pp_description : string;
  pp_prompt : string
}.

(** An element of the [results] array of the search endpoint. *)
Record SearchResult : Type := {
  sr_id : string;
  sr_categoryId : string;
  sr_categoryName : string;
  sr_title : string;
  sr_description : string
}.

Global Instance SearchResult_eq_dec : EqDecision SearchResult.
Proof. solve_decision. Defined.

(** The shapes of the files under [data/]: [categories.json] is an
    object with a [categories] array, [categories/<id>.json] an object
    with a [prompts] array, [prompts/<id>.json] one prompt. *)
Inductive Doc : Type :=
| CategoriesDoc (categories : list PCategory)
| CategoryDoc (prompts : list PSummary)
| PromptDoc (prompt : PPrompt).

Inductive Body : Type :=
| JsonDoc (d : Doc)
| JsonResults (results : list SearchResult)
| JsonError (error : string).

Record Response : Type := { status : nat; body : Body }.

Definition json (b : Body) : Response := {| status := 200; body := b |}.
Definition status_json (n : nat) (b : Body) : Response :=
  {| status := n; body := b |}.

Definition categoriesPath : string := "data/categories.json".
Definition categoryPath (categoryId : string) : string :=
  "data/categories/" +:+ categoryId +:+ ".json".
Definition promptsDir : string := "data/prompts".
Definition promptPath (promptId : string) : string :=
  promptsDir +:+ "/" +:+ promptId +:+ ".json".
(** [path.join(promptsDir, file)] *)
Definition promptFilePath (file : string) : string :=
  promptsDir +:+ "/" +:+ file.

(** [GET /api/categories] *)
Definition getCategories : IO Doc Response :=
  try_catch
    (data ← readFile categoriesPath;
     doc ← JSON_parse data;
     mret (json (JsonDoc doc)))
    (mret (status_json 500 (JsonError "Не удалось загрузить категории"))).

(** [GET /api/categories/:categoryId] *)
Definition getCategory (categoryId : string) : IO Doc Response :=
  try_catch
    (found ← existsSync (categoryPath categoryId);
     if negb found
     then mret (status_json 404 (JsonError "Категория не найдена"))
     else
       data ← readFile (categoryPath categoryId);
       doc ← JSON_parse data;
       mret (json (JsonDoc doc)))
    (mret (status_json 500 (JsonError "Не удалось загрузить категорию"))).

(** [GET /api/prompts/:promptId] *)
Definition getPrompt (promptId : string) : IO Doc Response :=
  try_catch
    (found ← existsSync (promptPath promptId);
     if negb found
     then mret (status_json 404 (JsonError "Промт не найден"))
     else
       data ← readFile (promptPath promptId);
       doc ← JSON_parse data;
       mret (json (JsonDoc doc)))
    (mret (status_json 500 (JsonError "Не удалось загрузить промт"))).

(** [categoriesData.categories]: [undefined] unless the document is the
    category index, and then [.forEach] throws. *)
Definition categories_of (d : Doc) : option (list PCategory) :=
  match d with
  | CategoriesDoc cs => Some cs
  | _ => None
  end.

(** The fields [title], [description] and [prompt] of a prompt file;
    [undefined.toLowerCase()] throws on any other document. *)
Definition prompt_of (d : Doc) : option PPrompt :=
  match d with
  | PromptDoc p => Some p
  | _ => None
  end.

(** [categoriesData.categories.forEach(cat => categoriesMap[cat.id] = cat.name)] *)
Definition buildCategoriesMap (categories : list PCategory)
  : gmap string string :=
  foldl (λ categoriesMap cat, <[pc_id cat := pc_name cat]> categoriesMap)
        ∅ categories.

(** [categoriesMap[categoryId] || 'Неизвестная категория'] *)
Definition categoryNameOf (categoriesMap : gmap string string)
    (categoryId : string) : string :=
  match categoriesMap !! categoryId with
  | Some name => if truthy name then name else "Неизвестная категория"
  | None => "Неизвестная категория"
  end.

(** The condition under which a prompt is pushed to [results]. *)
Definition matchesQuery (searchQuery : string) (promptData : PPrompt) : bool :=
  includes (toLowerCase (pp_title promptData)) searchQuery ||
  includes (toLowerCase (pp_description promptData)) searchQuery ||
  includes (toLowerCase (pp_prompt promptData)) searchQuery.

Definition toResult (categoriesMap : gmap string string)
    (promptData : PPrompt) : SearchResult :=
  {| sr_id := pp_id promptData;
     sr_categoryId := pp_categoryId promptData;
     sr_categoryName := categoryNameOf categoriesMap (pp_categoryId promptData);
     sr_title := pp_title promptData;
     sr_description := pp_description promptData |}.

(** [promptFiles.forEach(file => ...)]: no [try] of its own, so a file
    that cannot be read or parsed fails the whole request. *)
Fixpoint scanPrompts (searchQuery : string)
    (categoriesMap : gmap string string) (promptFiles : list string)
    (results : list SearchResult) : IO Doc (list SearchResult) :=
  match promptFiles with
  | [] => mret results
  | file :: rest =>
      if endsWith file ".json"
      then
        data ← readFile (promptFilePath file);
        doc ← JSON_parse data;
        promptData ← required (prompt_of doc);
        if matchesQuery searchQuery promptData
        then scanPrompts searchQuery categoriesMap rest
               (results ++ [toResult categoriesMap promptData])
        else scanPrompts searchQuery categoriesMap rest results
      else scanPrompts searchQuery categoriesMap rest results
  end.

(** [GET /api/search]; [q] is [req.query.q]. *)
Definition search (q : option string) : IO Doc Response :=
  try_catch
    (match q with
     | None => mret (json (JsonResults []))
     | Some q =>
         if negb (truthy q) || bool_decide (trim q = "")
         then mret (json (JsonResults []))
         else
           let searchQuery := trim (toLowerCase q) in
           categoriesData ← readFile categoriesPath;
           doc ← JSON_parse categoriesData;
           categories ← required (categories_of doc);
           let categoriesMap := buildCategoriesMap categories in
           promptFiles ← readdirSync promptsDir;
           results ← scanPrompts searchQuery categoriesMap promptFiles [];
           mret (json (JsonResults results))
     end)
    (mret (status_json 500 (JsonError "Ошибка поиска"))).

(** The files of [data/prompts] that the search opens. *)
Definition jsonFiles (promptFiles : list string) : list string :=
  List.filter (λ file, endsWith file ".json") promptFiles.

(** [ps] are the prompts held by the files [names], in that order. *)
Definition holds (w : world Doc) (names : list string) (ps : list PPrompt)
  : Prop :=
  Forall2 (λ file p, files w !! promptFilePath file = Some (Json (PromptDoc p)))
          names ps.

(** The fields that the specification names, for a prompt of the portal
    (its files carry no tags). *)
Definition containsQuery (q : string) (p : PPrompt) : Prop :=
  ci_contains q (pp_title p) ∨ ci_contains q (pp_description p).

(** The fields that the portal matches, against the query as the
    handler normalises it. *)
Definition containsNormalised (q : string) (p : PPrompt) : Prop :=
  let searchQuery := trim (toLowerCase q) in
  occurs_in searchQuery (toLowerCase (pp_title p)) ∨
  occurs_in searchQuery (toLowerCase (pp_description p)) ∨
  occurs_in searchQuery (toLowerCase (pp_prompt p)).

(** The short-circuit that the specification asks of [search], stated
    of this server. *)
Definition short_query_short_circuits : Prop :=
  ∀ (w : world Doc) (q : string),
    String.length q < 2 →
    run (search (Some q)) w = (Some (json (JsonResults [])), []).

(** The matching rule that the specification asks of [search], stated
    of this server. *)
Definition matches_title_description_tags : Prop :=
  ∀ (w : world Doc) (q : string) (names : list string) (ps : list PPrompt)
    (cats : list PCategory) (results : list SearchResult) (p : PPrompt),
    2 ≤ String.length q →
    files w !! categoriesPath = Some (Json (CategoriesDoc cats)) →
    dirs w !! promptsDir = Some names →
    holds w (jsonFiles names) ps →
    fst (run (search (Some q)) w) = Some (json (JsonResults results)) →
    p ∈ ps →
    (toResult (buildCategoriesMap cats) p ∈ results ↔ containsQuery q p).

End Portal.

(** ** The React front end (the [App] component) *)

Module App.

Inductive View : Type := home | category.

Global Instance View_eq_dec : EqDecision View.
Proof. solve_decision. Defined.

(** The calls made to [DataService]. *)
Inductive Call : Type :=
| getCategories
| getPromptsByCategoryId (categoryId : string)
| searchPrompts (query : string)
| getPromptById (promptId : string).

Global Instance Call_eq_dec : EqDecision Call.
Proof. solve_decision. Defined.

(** What the promise of a call settles to. [FullPrompt None] is
    [getPromptById] resolving to [null]; [Rejected] is a rejection. *)
Inductive Settled : Type :=
| Categories (cats : list Category)
| Prompts (data : list Prompt)
| FullPrompt (fullPrompt : option Prompt)
| Rejected.

(** The [useState] cells of the component, and the promises it awaits,
    the oldest first. *)
Record State : Type := {
  view : View;
  activeCategoryId : option string;
  categories : list Category;
  prompts : list Prompt;
  searchQuery : string;
  loading : bool;
  loadingPrompts : bool;
  selectedPrompt : option Prompt;
  isModalOpen : bool;
  inflight : list Call
}.

Definition setView (v : View) (st : State) : State :=
  {| view := v; activeCategoryId := activeCategoryId st;
     categories := categories st; prompts := prompts st;
     searchQuery := searchQuery st; loading := loading st;
     loadingPrompts := loadingPrompts st;
     selectedPrompt := selectedPrompt st; isModalOpen := isModalOpen st;
     inflight := inflight st |}.

Definition setActiveCategoryId (a : option string) (st : State) : State :=
  {| view := view st; activeCategoryId := a;
     categories := categories st; prompts := prompts st;
     searchQuery := searchQuery st; loading := loading st;
     loadingPrompts := loadingPrompts st;
     selectedPrompt := selectedPrompt st; isModalOpen := isModalOpen st;
     inflight := inflight st |}.

Definition setCategories (cats : list Category) (st : State) : State :=
  {| view := view st; activeCategoryId := activeCategoryId st;
     categories := cats; prompts := prompts st;
     searchQuery := searchQuery st; loading := loading st;
     loadingPrompts := loadingPrompts st;
     selectedPrompt := selectedPrompt st; isModalOpen := isModalOpen st;
     inflight := inflight st |}.

Definition setPrompts (data : list Prompt) (st : State) : State :=
  {| view := view st; activeCategoryId := activeCategoryId st;
     categories := categories st; prompts := data;
     searchQuery := searchQuery st; loading := loading st;
     loadingPrompts := loadingPrompts st;
     selectedPrompt := selectedPrompt st; isModalOpen := isModalOpen st;
     inflight := inflight st |}.

Definition setSearchQuery (q : string) (st : State) : State :=
  {| view := view st; activeCategoryId := activeCategoryId st;
     categories := categories st; prompts := prompts st;
     searchQuery := q; loading := loading st;
     loadingPrompts := loadingPrompts st;
     selectedPrompt := selectedPrompt st; isModalOpen := isModalOpen st;
     inflight := inflight st |}.

Definition setLoading (b : bool) (st : State) : State :=
  {| view := view st; activeCategoryId := activeCategoryId st;
     categories := categories st; prompts := prompts st;
     searchQuery := searchQuery st; loading := b;
     loadingPrompts := loadingPrompts st;
     selectedPrompt := selectedPrompt st; isModalOpen := isModalOpen st;
     inflight := inflight st |}.

Definition setLoadingPrompts (b : bool) (st : State) : State :=
  {| view := view st; activeCategoryId := activeCategoryId st;
     categories := categories st; prompts := prompts st;
     searchQuery := searchQuery st; loading := loading st;
     loadingPrompts := b;
     selectedPrompt := selectedPrompt st; isModalOpen := isModalOpen st;
     inflight := inflight st |}.

(** [setSelectedPrompt(f)], the functional form. *)
Definition setSelectedPrompt (f : option Prompt → option Prompt)
    (st : State) : State :=
  {| view := view st; activeCategoryId := activeCategoryId st;
     categories := categories st; prompts := prompts st;
     searchQuery := searchQuery st; loading := loading st;
     loadingPrompts := loadingPrompts st;
     selectedPrompt := f (selectedPrompt st); isModalOpen := isModalOpen st;
     inflight := inflight st |}.

Definition setIsModalOpen (b : bool) (st : State) : State :=
  {| view := view st; activeCategoryId := activeCategoryId st;
     categories := categories st; prompts := prompts st;
     searchQuery := searchQuery st; loading := loading st;
     loadingPrompts := loadingPrompts st;
     selectedPrompt := selectedPrompt st; isModalOpen := b;
     inflight := inflight st |}.

Definition setInflight (l : list Call) (st : State) : State :=
  {| view := view st; activeCategoryId := activeCategoryId st;
     categories := categories st; prompts := prompts st;
     searchQuery := searchQuery st; loading := loading st;
     loadingPrompts := loadingPrompts st;
     selectedPrompt := selectedPrompt st; isModalOpen := isModalOpen st;
     inflight := l |}.

(** [await DataService.f(..)]: the call is made and its promise joins
    the outstanding ones. *)
Definition await (c : Call) (st : State) : State :=
  setInflight (inflight st ++ [c]) st.

(** The state of the first render, once the mount effect has called
    [init]. *)
Definition initial : State :=
  {| view := home; activeCategoryId := None; categories := [];
     prompts := []; searchQuery := ""; loading := true;
     loadingPrompts := false; selectedPrompt := None;
     isModalOpen := false; inflight := [getCategories] |}.

(** The dependency array [[view, activeCategoryId, searchQuery]]. *)
Definition deps (st : State) : View * option string * string :=
  (view st, activeCategoryId st, searchQuery st).

(** The call that the second effect makes for the current dependencies,
    if any. *)
Definition effectCall (st : State) : option Call :=
  match view st, activeCategoryId st with
  | category, Some activeCategoryId =>
      if truthy activeCategoryId
      then Some (getPromptsByCategoryId activeCategoryId)
      else None
  | category, None => None
  | home, _ =>
      if 2 <? String.length (searchQuery st)
      then Some (searchPrompts (searchQuery st))
      else None
  end.

(** The second effect: [loadPrompts()] or [doSearch()] up to its
    [await]. *)
Definition effect (st : State) : State :=
  match effectCall st with
  | Some c => await c (setLoadingPrompts true st)
  | None => st
  end.

(** A render follows a handler; the effect runs when a dependency has
    changed since the previous render. *)
Definition rerender (before after : State) : State :=
  if decide (deps before = deps after) then after else effect after.

(** *** Handlers *)

Definition handleCategoryClick (id : string) (st : State) : State :=
  setSearchQuery "" (setView category (setActiveCategoryId (Some id) st)).

Definition handleBack (st : State) : State :=
  setPrompts [] (setSearchQuery ""
    (setActiveCategoryId None (setView home st))).

(** [handlePromptClick] up to its [await]. *)
Definition handlePromptClick (promptSummary : Prompt) (st : State) : State :=
  await (getPromptById (id promptSummary))
    (setIsModalOpen true (setSelectedPrompt (λ _, Some promptSummary) st)).

Definition handleSearchChange (val : string) (st : State) : State :=
  let st' := setSearchQuery val st in
  if 2 <? String.length val
  then (if decide (view st = home) then st' else setView home st')
  else st'.

(** *** Continuations after an [await] *)

(** [init]: [try { setCategories } catch { log } finally { setLoading(false) }] *)
Definition init_resume (r : Settled) (st : State) : option State :=
  match r with
  | Categories cats => Some (setLoading false (setCategories cats st))
  | Rejected => Some (setLoading false st)
  | _ => None
  end.

(** [loadPrompts] and [doSearch]:
    [try { setPrompts } finally { setLoadingPrompts(false) }] *)
Definition list_resume (r : Settled) (st : State) : option State :=
  match r with
  | Prompts data => Some (setLoadingPrompts false (setPrompts data st))
  | Rejected => Some (setLoadingPrompts false st)
  | _ => None
  end.

(** [handlePromptClick] after [getPromptById] has settled. *)
Definition handlePromptClick_resume (r : Settled) (st : State)
  : option State :=
  match r with
  | FullPrompt (Some fullPrompt) =>
      Some (setSelectedPrompt
              (λ prev, if decide (id <$> prev = Some (id fullPrompt))
                       then Some fullPrompt else prev) st)
  | FullPrompt None => Some (setIsModalOpen false st)
  | Rejected => Some (setIsModalOpen false st)
  | _ => None
  end.

Definition resume (c : Call) (r : Settled) (st : State) : option State :=
  match c with
  | getCategories => init_resume r st
  | getPromptsByCategoryId _ => list_resume r st
  | searchPrompts _ => list_resume r st
  | getPromptById _ => handlePromptClick_resume r st
  end.

(** The [i]-th outstanding promise settles to [r]. Nothing happens when
    there is no such promise or when [r] has not the type the call
    returns. *)
Definition settle (i : nat) (r : Settled) (st : State) : State :=
  match inflight st !! i with
  | Some c =>
      default st (resume c r (setInflight (delete i (inflight st)) st))
  | None => st
  end.

(** *** Events *)

Inductive UserEvent : Type :=
| CategoryClick (id : string)
| Back
| PromptClick (promptSummary : Prompt)
| SearchChange (val : string)
| ClearSearch
| CloseModal.

Inductive Event : Type :=
| User (u : UserEvent)
| Settle (i : nat) (r : Settled).

Definition handle (st : State) (u : UserEvent) : State :=
  match u with
  | CategoryClick id => rerender st (handleCategoryClick id st)
  | Back => rerender st (handleBack st)
  | PromptClick promptSummary => handlePromptClick promptSummary st
  | SearchChange val => rerender st (handleSearchChange val st)
  | ClearSearch => rerender st (setSearchQuery "" st)
  | CloseModal => setIsModalOpen false st
  end.

Definition step (st : State) (e : Event) : State :=
  match e with
  | User u => handle st u
  | Settle i r => settle i r st
  end.

Definition run (evs : list Event) (st : State) : State :=
  foldl step st evs.

(** *** Runs against a data service

    [DataService] is a parameter of the component: a service that
    answers every call, the same way each time. *)

Record Service : Type := {
  allCategories : list Category;
  promptsOf : string → list Prompt;
  resultsOf : string → list Prompt;
  promptOf : string → option Prompt
}.

Definition answer (sv : Service) (c : Call) : Settled :=
  match c with
  | getCategories => Categories (allCategories sv)
  | getPromptsByCategoryId categoryId => Prompts (promptsOf sv categoryId)
  | searchPrompts query => Prompts (resultsOf sv query)
  | getPromptById promptId => FullPrompt (promptOf sv promptId)
  end.

(** The list that the service returns for a call that fills [prompts]. *)
Definition listOf (sv : Service) (c : Call) : list Prompt :=
  match c with
  | getPromptsByCategoryId categoryId => promptsOf sv categoryId
  | searchPrompts query => resultsOf sv query
  | _ => []
  end.

Inductive Action : Type :=
| Act (u : UserEvent)
| Arrive (i : nat).

(** [Arrive i]: the answer of the service to the [i]-th outstanding
    call arrives. *)
Definition play (sv : Service) (st : State) (a : Action) : State :=
  match a with
  | Act u => step st (User u)
  | Arrive i =>
      match inflight st !! i with
      | Some c => step st (Settle i (answer sv c))
      | None => st
      end
  end.

Definition session (sv : Service) (acts : list Action) : State :=
  foldl (play sv) initial acts.

(** Responses arrive in the order in which the calls were made: the
    call that is answered is always the oldest outstanding one. *)
Definition oldest_first (a : Action) : Prop :=
  match a with
  | Arrive i => i = 0
  | Act _ => True
  end.

Definition in_order (acts : list Action) : Prop := Forall oldest_first acts.

(** The calls whose answer fills [prompts]. *)
Definition isListCall (c : Call) : bool :=
  match c with
  | getPromptsByCategoryId _ | searchPrompts _ => true
  | _ => false
  end.

(** The list that [prompts] holds once the outstanding calls have been
    answered in order: the answer to the youngest of them, or the
    current list when none is outstanding. *)
Definition settledList (sv : Service) (st : State) : list Prompt :=
  match last (List.filter isListCall (inflight st)) with
  | Some c => listOf sv c
  | None => prompts st
  end.

(** The list that will be on display once the outstanding calls are
    answered is the answer to the call that the current view and query
    stand for. *)
Definition on_course (sv : Service) (st : State) : Prop :=
  ∀ c, effectCall st = Some c → settledList sv st = listOf sv c.

(** The identifier of the summary given to the last [PromptClick]. *)
Definition lastSelected (evs : list Event) : option string :=
  foldl (λ acc e, match e with
                  | User (PromptClick promptSummary) => Some (id promptSummary)
                  | _ => acc
                  end) None evs.

(** The ordering guarantee as the specification words it, for the list
    of prompts: once no call is outstanding, the list on display is the
    answer to the call that the last user action stands for, in
    whatever order the answers have arrived. *)
Definition last_action_wins : Prop :=
  ∀ (sv : Service) (acts : list Action) (c : Call),
    inflight (session sv acts) = [] →
    effectCall (session sv acts) = Some c →
    prompts (session sv acts) = listOf sv c.

(** The transition that the specification asks of a query entered in
    the view of a category, with its threshold of two characters. *)
Definition query_of_two_returns_home : Prop :=
  ∀ (st : State) (val : string),
    view st = category →
    2 ≤ String.length val →
    view (handle st (SearchChange val)) = home.

(** *** Rendering *)

Inductive ListBody : Type :=
| Skeleton
| NotFound (clearButton : bool)
| Items (ps : list Prompt).

Inductive Main : Type :=
| Spinner
| CategoryGrid (cats : list Category)
| PromptsList (breadcrumb : option string) (body : ListBody).

(** The props of [PromptModal]. *)
Record ModalProps : Type := { prompt : option Prompt; isOpen : bool }.

Record Screen : Type := {
  searchInput : string;
  main : Main;
  modal : ModalProps
}.

Definition activeCategory (st : State) : option Category :=
  List.find (λ c, bool_decide (Some (cat_id c) = activeCategoryId st))
            (categories st).

Definition filteredCategories (st : State) : list Category :=
  if negb (truthy (searchQuery st)) then categories st
  else List.filter
         (λ c, includes (toLowerCase (cat_name c))
                        (toLowerCase (searchQuery st)))
         (categories st).

Definition renderPromptsList (st : State) : Main :=
  PromptsList
    (match view st with
     | home => Some "Результаты поиска"
     | category => cat_name <$> activeCategory st
     end)
    (if loadingPrompts st then Skeleton
     else match prompts st with
          | [] => NotFound (bool_decide (view st = home)
                            && truthy (searchQuery st))
          | _ => Items (prompts st)
          end).

Definition render (st : State) : Screen :=
  {| searchInput := searchQuery st;
     main :=
       if loading st then Spinner
       else if bool_decide (view st = home) && negb (truthy (searchQuery st))
       then CategoryGrid (filteredCategories st)
       else renderPromptsList st;
     modal := {| prompt := selectedPrompt st; isOpen := isModalOpen st |} |}.

(** *** Invariants of the runs *)

(** A skeleton or a spinner on display has a call behind it. *)
Definition busy_with_reason (st : State) : Prop :=
  (loadingPrompts st = true → ∃ c, c ∈ inflight st ∧ isListCall c = true)
  ∧ (loading st = true → getCategories ∈ inflight st).

(** Each value typed differs from the content of the field before it. *)
Fixpoint each_differs (before : string) (vals : list string) : Prop :=
  match vals with
  | [] => True
  | val :: rest => before ≠ val ∧ each_differs val rest
  end.

Definition isPromptClick (e : Event) : bool :=
  match e with
  | User (PromptClick _) => true
  | _ => false
  end.

End App.

(** ** The portal front end ([src/portal/public/js/app.js]) *)

Module Client.

Import Portal.

Inductive View : Type := categoriesView | promptsView.

(** The global [state] object; [searchTimeout] holds the query that the
    pending timer will search for. *)
Record AppState : Type := {
  currentView : View;
  currentCategoryId : option string;
  currentCategoryName : option string;
  searchTimeout : option string
}.

(** The global [cache] object. *)
Record Cache : Type := {
  categories : option (list PCategory);
  categoryPrompts : gmap string (list PSummary);
  prompts : gmap string PPrompt
}.

Inductive Content : Type :=
| Blank
| CategoriesGrid (cats : list PCategory)
| PromptCards (ps : list PSummary).

(** [elements.loading], [elements.errorMessage], [elements.contentContainer] *)
Record Page : Type := {
  loading_visible : bool;
  errorMessage : option string;
  contentContainer : Content
}.

Inductive ResultsHtml : Type :=
| NoHtml
| NothingFound
| SearchFailed
| ResultItems (results : list SearchResult).

(** [elements.searchInput], [elements.searchClear], [elements.searchResults] *)
Record SearchBox : Type := {
  searchInput_value : string;
  searchClear_visible : bool;
  searchResults_html : ResultsHtml;
  searchResults_visible : bool
}.

(** [elements.modalOverlay] and the fields of the modal *)
Record Modal : Type := {
  modalOverlay_visible : bool;
  modalTitle : string;
  modalDescription : string;
  modalPromptContent : string;
  copyButton_promptId : option string
}.

Inductive Request : Type :=
| GET_categories
| GET_category (categoryId : string)
| GET_prompt (promptId : string)
| GET_search (q : string).

Global Instance Request_eq_dec : EqDecision Request.
Proof. solve_decision. Defined.

(** What [fetch] followed by [response.json()] comes to: a rejection, a
    response that is not [ok], or the decoded body. *)
Inductive Reply : Type :=
| NetworkError
| NotOk (status : nat)
| OkCategories (cats : list PCategory)
| OkCategory (ps : list PSummary)
| OkPrompt (data : PPrompt)
| OkResults (results : list SearchResult).

(** The async function suspended on a [fetch]. *)
Inductive Awaiting : Type :=
| InLoadCategories
| InLoadCategoryPrompts (categoryId : string)
| InOpenPromptModal (promptId : string)
| InPerformSearch (query : string).

Record Session : Type := {
  state : AppState;
  cache : Cache;
  page : Page;
  searchBox : SearchBox;
  modal : Modal;
  alerts : list string;
  inflight : list Awaiting;
  fetched : list Request
}.

Definition with_state (f : AppState → AppState) (s : Session) : Session :=
  {| state := f (state s); cache := cache s; page := page s;
     searchBox := searchBox s; modal := modal s; alerts := alerts s;
     inflight := inflight s; fetched := fetched s |}.

Definition with_cache (f : Cache → Cache) (s : Session) : Session :=
  {| state := state s; cache := f (cache s); page := page s;
     searchBox := searchBox s; modal := modal s; alerts := alerts s;
     inflight := inflight s; fetched := fetched s |}.

Definition with_page (f : Page → Page) (s : Session) : Session :=
  {| state := state s; cache := cache s; page := f (page s);
     searchBox := searchBox s; modal := modal s; alerts := alerts s;
     inflight := inflight s; fetched := fetched s |}.

Definition with_searchBox (f : SearchBox → SearchBox) (s : Session)
  : Session :=
  {| state := state s; cache := cache s; page := page s;
     searchBox := f (searchBox s); modal := modal s; alerts := alerts s;
     inflight := inflight s; fetched := fetched s |}.

Definition with_modal (f : Modal → Modal) (s : Session) : Session :=
  {| state := state s; cache := cache s; page := page s;
     searchBox := searchBox s; modal := f (modal s); alerts := alerts s;
     inflight := inflight s; fetched := fetched s |}.

Definition alert (msg : string) (s : Session) : Session :=
  {| state := state s; cache := cache s; page := page s;
     searchBox := searchBox s; modal := modal s;
     alerts := alerts s ++ [msg];
     inflight := inflight s; fetched := fetched s |}.

Definition set_inflight (l : list Awaiting) (s : Session) : Session :=
  {| state := state s; cache := cache s; page := page s;
     searchBox := searchBox s; modal := modal s; alerts := alerts s;
     inflight := l; fetched := fetched s |}.

(** [await fetch(url)] inside the async function [k]. *)
Definition fetch (r : Request) (k : Awaiting) (s : Session) : Session :=
  {| state := state s; cache := cache s; page := page s;
     searchBox := searchBox s; modal := modal s; alerts := alerts s;
     inflight := inflight s ++ [k]; fetched := fetched s ++ [r] |}.

(** *** Utilities *)

Definition showLoading : Session → Session :=
  with_page (λ p, {| loading_visible := true;
                     errorMessage := errorMessage p;
                     contentContainer := Blank |}).

Definition hideLoading : Session → Session :=
  with_page (λ p, {| loading_visible := false;
                     errorMessage := errorMessage p;
                     contentContainer := contentContainer p |}).

Definition showError (message : string) : Session → Session :=
  with_page (λ p, {| loading_visible := loading_visible p;
                     errorMessage := Some message;
                     contentContainer := contentContainer p |}).

Definition hideError : Session → Session :=
  with_page (λ p, {| loading_visible := loading_visible p;
                     errorMessage := None;
                     contentContainer := contentContainer p |}).

Definition set_content (c : Content) : Session → Session :=
  with_page (λ p, {| loading_visible := loading_visible p;
                     errorMessage := errorMessage p;
                     contentContainer := c |}).

Definition set_currentView (v : View) : Session → Session :=
  with_state (λ st, {| currentView := v;
                       currentCategoryId := currentCategoryId st;
                       currentCategoryName := currentCategoryName st;
                       searchTimeout := searchTimeout st |}).

Definition set_currentCategory (cid cname : option string)
  : Session → Session :=
  with_state (λ st, {| currentView := currentView st;
                       currentCategoryId := cid;
                       currentCategoryName := cname;
                       searchTimeout := searchTimeout st |}).

Definition set_searchTimeout (t : option string) : Session → Session :=
  with_state (λ st, {| currentView := currentView st;
                       currentCategoryId := currentCategoryId st;
                       currentCategoryName := currentCategoryName st;
                       searchTimeout := t |}).

(** *** Rendering *)

Definition renderCategories (cats : list PCategory) (s : Session) : Session :=
  set_content (CategoriesGrid cats) (set_currentView categoriesView s).

Definition renderPrompts (ps : list PSummary) (s : Session) : Session :=
  set_content (PromptCards ps) (set_currentView promptsView s).

(** *** Loading data: each function up to its [fetch], then after it *)

Definition loadCategories (s : Session) : Session :=
  let s := hideError (showLoading s) in
  match categories (cache s) with
  | Some cats => hideLoading (renderCategories cats s)
  | None => fetch GET_categories InLoadCategories s
  end.

Definition loadCategories_resume (r : Reply) (s : Session)
  : option Session :=
  match r with
  | OkCategories cats =>
      let s := with_cache (λ c, {| categories := Some cats;
                                   categoryPrompts := categoryPrompts c;
                                   prompts := prompts c |}) s in
      Some (hideLoading (renderCategories cats s))
  | NetworkError | NotOk _ =>
      Some (hideLoading
              (showError "Не удалось загрузить категории. Проверьте подключение к серверу." s))
  | _ => None
  end.

Definition loadCategoryPrompts (categoryId : string) (s : Session)
  : Session :=
  let s := hideError (showLoading s) in
  match categoryPrompts (cache s) !! categoryId with
  | Some ps => hideLoading (renderPrompts ps s)
  | None => fetch (GET_category categoryId)
                  (InLoadCategoryPrompts categoryId) s
  end.

Definition loadCategoryPrompts_resume (categoryId : string) (r : Reply)
    (s : Session) : option Session :=
  match r with
  | OkCategory ps =>
      let s := with_cache
                 (λ c, {| categories := categories c;
                          categoryPrompts :=
                            <[categoryId := ps]> (categoryPrompts c);
                          prompts := prompts c |}) s in
      Some (hideLoading (renderPrompts ps s))
  | NetworkError | NotOk _ =>
      Some (hideLoading
              (showError "Не удалось загрузить промты. Попробуйте позже." s))
  | _ => None
  end.

(** *** Navigation *)

Definition navigateToCategories (s : Session) : Session :=
  loadCategories (set_currentCategory None None s).

Definition navigateToCategory (categoryId categoryName : string)
    (s : Session) : Session :=
  loadCategoryPrompts categoryId
    (set_currentCategory (Some categoryId) (Some categoryName) s).

(** *** Search *)

Definition showSearchResults : Session → Session :=
  with_searchBox (λ b, {| searchInput_value := searchInput_value b;
                          searchClear_visible := searchClear_visible b;
                          searchResults_html := searchResults_html b;
                          searchResults_visible := true |}).

Definition hideSearchResults : Session → Session :=
  with_searchBox (λ b, {| searchInput_value := searchInput_value b;
                          searchClear_visible := searchClear_visible b;
                          searchResults_html := searchResults_html b;
                          searchResults_visible := false |}).

Definition set_searchResults_html (h : ResultsHtml) : Session → Session :=
  with_searchBox (λ b, {| searchInput_value := searchInput_value b;
                          searchClear_visible := searchClear_visible b;
                          searchResults_html := h;
                          searchResults_visible := searchResults_visible b |}).

Definition set_searchClear_visible (v : bool) : Session → Session :=
  with_searchBox (λ b, {| searchInput_value := searchInput_value b;
                          searchClear_visible := v;
                          searchResults_html := searchResults_html b;
                          searchResults_visible := searchResults_visible b |}).

Definition set_searchInput_value (v : string) : Session → Session :=
  with_searchBox (λ b, {| searchInput_value := v;
                          searchClear_visible := searchClear_visible b;
                          searchResults_html := searchResults_html b;
                          searchResults_visible := searchResults_visible b |}).

Definition clearSearch (s : Session) : Session :=
  hideSearchResults
    (set_searchClear_visible false (set_searchInput_value "" s)).

(** The [input] event: the field holds [value] when the handler runs. *)
Definition handleSearchInput (value : string) (s : Session) : Session :=
  let s := set_searchInput_value value s in
  let query := trim value in
  let s := set_searchClear_visible (0 <? String.length query) s in
  let s := set_searchTimeout None s in
  if String.length query =? 0 then hideSearchResults s
  else if String.length query <? 2 then s
  else set_searchTimeout (Some query) s.

Definition performSearch (query : string) (s : Session) : Session :=
  fetch (GET_search query) (InPerformSearch query) s.

Definition renderSearchResults (results : list SearchResult) (s : Session)
  : Session :=
  showSearchResults
    (set_searchResults_html
       (match results with
        | [] => NothingFound
        | _ => ResultItems results
        end) s).

Definition performSearch_resume (r : Reply) (s : Session) : option Session :=
  match r with
  | OkResults results => Some (renderSearchResults results s)
  | NetworkError | NotOk _ =>
      Some (showSearchResults (set_searchResults_html SearchFailed s))
  | _ => None
  end.

(** The timer set by [handleSearchInput] fires after 300 ms. *)
Definition timeout (s : Session) : Session :=
  match searchTimeout (state s) with
  | Some query => performSearch query (set_searchTimeout None s)
  | None => s
  end.

(** *** The modal *)

Definition fillModal (promptId : string) (prompt : PPrompt) : Session → Session :=
  with_modal (λ _, {| modalOverlay_visible := true;
                      modalTitle := pp_title prompt;
                      modalDescription := pp_description prompt;
                      modalPromptContent := pp_prompt prompt;
                      copyButton_promptId := Some promptId |}).

Definition closeModal : Session → Session :=
  with_modal (λ m, {| modalOverlay_visible := false;
                      modalTitle := modalTitle m;
                      modalDescription := modalDescription m;
                      modalPromptContent := modalPromptContent m;
                      copyButton_promptId := copyButton_promptId m |}).

(** [openPromptModal] with [loadPrompt] inlined, up to the [fetch]. *)
Definition openPromptModal (promptId : string) (s : Session) : Session :=
  match prompts (cache s) !! promptId with
  | Some prompt => fillModal promptId prompt s
  | None => fetch (GET_prompt promptId) (InOpenPromptModal promptId) s
  end.

Definition openPromptModal_resume (promptId : string) (r : Reply)
    (s : Session) : option Session :=
  match r with
  | OkPrompt data =>
      let s := with_cache
                 (λ c, {| categories := categories c;
                          categoryPrompts := categoryPrompts c;
                          prompts := <[promptId := data]> (prompts c) |}) s in
      Some (fillModal promptId data s)
  | NetworkError | NotOk _ =>
      Some (alert "Не удалось загрузить промт. Попробуйте позже." s)
  | _ => None
  end.

(** *** Events *)

Definition resume (k : Awaiting) (r : Reply) (s : Session) : option Session :=
  match k with
  | InLoadCategories => loadCategories_resume r s
  | InLoadCategoryPrompts categoryId =>
      loadCategoryPrompts_resume categoryId r s
  | InOpenPromptModal promptId => openPromptModal_resume promptId r s
  | InPerformSearch _ => performSearch_resume r s
  end.

(** The [i]-th outstanding [fetch] settles to [r]; nothing happens when
    there is none or when [r] is not a body of that end point. *)
Definition settle (i : nat) (r : Reply) (s : Session) : Session :=
  match inflight s !! i with
  | Some k => default s (resume k r (set_inflight (delete i (inflight s)) s))
  | None => s
  end.

(** What happens in the page: the events that the listeners are bound to,
    and the timer of the search field. *)
Inductive DomEvent : Type :=
| PageLoaded
| Input (value : string)
| Timeout
| ClickClear
| ClickElsewhere
| PressEscape
| ClickCategory (categoryId categoryName : string)
| ClickHome
| ClickPrompt (promptId : string)
| ClickResult (promptId categoryId categoryName : string)
| ClickClose.

Inductive Event : Type :=
| Dom (d : DomEvent)
| Settle (i : nat) (r : Reply).

(** The [click] listener of the document, which runs after the listener
    of the element clicked: a click outside the search container hides
    the panel of results. The search field, its clear button and the
    results are inside the container; the cards, the links and the modal
    are outside. *)
Definition documentClick (s : Session) : Session := hideSearchResults s.

Definition dispatch (s : Session) (d : DomEvent) : Session :=
  match d with
  | PageLoaded => loadCategories s
  | Input value => handleSearchInput value s
  | Timeout => timeout s
  | ClickClear => clearSearch s
  | ClickElsewhere => documentClick s
  | PressEscape => hideSearchResults (closeModal s)
  | ClickCategory categoryId categoryName =>
      documentClick (navigateToCategory categoryId categoryName s)
  | ClickHome => documentClick (navigateToCategories s)
  | ClickPrompt promptId => documentClick (openPromptModal promptId s)
  | ClickResult promptId categoryId categoryName =>
      openPromptModal promptId
        (clearSearch
           (hideSearchResults
              (set_currentCategory (Some categoryId) (Some categoryName) s)))
  | ClickClose => documentClick (closeModal s)
  end.

Definition step (s : Session) (e : Event) : Session :=
  match e with
  | Dom d => dispatch s d
  | Settle i r => settle i r s
  end.

Definition run (evs : list Event) (s : Session) : Session :=
  foldl step s evs.

(** *** Runs against a server

    A server that answers every request, the same way each time; a prompt
    it does not know is answered by 404. *)

Record Backend : Type := {
  categoriesOf : list PCategory;
  promptsIn : string → list PSummary;
  promptData : string → option PPrompt;
  resultsFor : string → list SearchResult
}.

Definition answer (b : Backend) (k : Awaiting) : Reply :=
  match k with
  | InLoadCategories => OkCategories (categoriesOf b)
  | InLoadCategoryPrompts categoryId => OkCategory (promptsIn b categoryId)
  | InOpenPromptModal promptId =>
      match promptData b promptId with
      | Some data => OkPrompt data
      | None => NotOk 404
      end
  | InPerformSearch query => OkResults (resultsFor b query)
  end.

Inductive Action : Type :=
| Act (d : DomEvent)
| Arrive (i : nat).

Definition play (b : Backend) (s : Session) (a : Action) : Session :=
  match a with
  | Act d => dispatch s d
  | Arrive i =>
      match inflight s !! i with
      | Some k => settle i (answer b k) s
      | None => s
      end
  end.

(** Responses arrive in the order in which the requests were sent. *)
Definition oldest_first (a : Action) : Prop :=
  match a with
  | Arrive i => i = 0
  | Act _ => True
  end.

Definition in_order (acts : list Action) : Prop := Forall oldest_first acts.

Definition searchRequested (r : Request) : option string :=
  match r with
  | GET_search q => Some q
  | _ => None
  end.

Definition searchAwaited (k : Awaiting) : option string :=
  match k with
  | InPerformSearch query => Some query
  | _ => None
  end.

(** The query of the last search sent to the server. *)
Definition lastSearch (s : Session) : option string :=
  last (omap searchRequested (fetched s)).

(** The panel that [renderSearchResults] draws. *)
Definition resultsPanel (results : list SearchResult) : ResultsHtml :=
  match results with
  | [] => NothingFound
  | _ => ResultItems results
  end.

(** The panel on display once the outstanding searches have been
    answered in order. *)
Definition settledPanel (b : Backend) (s : Session) : ResultsHtml :=
  match last (omap searchAwaited (inflight s)) with
  | Some query => resultsPanel (resultsFor b query)
  | None => searchResults_html (searchBox s)
  end.

Definition on_course (b : Backend) (s : Session) : Prop :=
  ∀ q, lastSearch s = Some q → settledPanel b s = resultsPanel (resultsFor b q).

(** The page before [DOMContentLoaded]. *)
Definition initial : Session :=
  {| state := {| currentView := categoriesView; currentCategoryId := None;
                 currentCategoryName := None; searchTimeout := None |};
     cache := {| categories := None; categoryPrompts := ∅; prompts := ∅ |};
     page := {| loading_visible := false; errorMessage := None;
                contentContainer := Blank |};
     searchBox := {| searchInput_value := ""; searchClear_visible := false;
                     searchResults_html := NoHtml;
                     searchResults_visible := false |};
     modal := {| modalOverlay_visible := false; modalTitle := "";
                 modalDescription := ""; modalPromptContent := "";
                 copyButton_promptId := None |};
     alerts := []; inflight := []; fetched := [] |}.

Definition session (b : Backend) (acts : list Action) : Session :=
  foldl (play b) initial acts.

(** A call of [loadCategories] awaited to its end: if it has issued a
    request, the server's [reply] to it arrives before anything else. *)
Definition loadCategories_await (reply : Reply) (s : Session) : Session :=
  let s' := loadCategories s in
  if decide (fetched s' = fetched s) then s'
  else settle (length (inflight s)) reply s'.

(** *** The rest of the page *)

(** [formatPromptCount(count)]: the count with the Russian plural of
    its noun. *)
Definition formatPromptCount (count : nat) : string :=
  let lastDigit := count mod 10 in
  let lastTwoDigits := count mod 100 in
  let word :=
    if (11 <=? lastTwoDigits) && (lastTwoDigits <=? 19) then "промтов"
    else if lastDigit =? 1 then "промт"
    else if (2 <=? lastDigit) && (lastDigit <=? 4) then "промта"
    else "промтов" in
  pretty count +:+ " " +:+ word.

(** The listener of the retry button. [state.currentCategoryId] may be
    [null], which the template literal of the URL prints as [null]. *)
Definition retry (s : Session) : Session :=
  match currentView (state s) with
  | categoriesView => loadCategories s
  | promptsView =>
      loadCategoryPrompts (default "null" (currentCategoryId (state s))) s
  end.

(** The async functions that show the loading indicator. *)
Definition isLoad (k : Awaiting) : bool :=
  match k with
  | InLoadCategories | InLoadCategoryPrompts _ => true
  | _ => false
  end.

(** The loading indicator on display has a load behind it. *)
Definition loading_has_reason (s : Session) : Prop :=
  loading_visible (page s) = true → ∃ k, k ∈ inflight s ∧ isLoad k = true.

(** Everything that [c] holds, [c'] holds an entry for. *)
Definition cache_kept (c c' : Cache) : Prop :=
  (is_Some (categories c) → is_Some (categories c'))
  ∧ (∀ categoryId, is_Some (categoryPrompts c !! categoryId) →
                   is_Some (categoryPrompts c' !! categoryId))
  ∧ (∀ promptId, is_Some (prompts c !! promptId) →
                 is_Some (prompts c' !! promptId)).

(** An overlay on display shows a prompt that has been loaded: there is
    no state in which it is open and waiting for its content. *)
Definition shows_loaded_prompt (m : Modal) : Prop :=
  modalOverlay_visible m = true →
  ∃ promptId data,
    m = {| modalOverlay_visible := true;
           modalTitle := pp_title data;
           modalDescription := pp_description data;
           modalPromptContent := pp_prompt data;
           copyButton_promptId := Some promptId |}.


(** The names that every object inherits from [Object.prototype]. The
    tables of the cache are plain objects read by [cache.t[key]], so a
    key of one of these names is found in an empty table; the finite
    maps of this model hold own keys only. *)
Definition objectPrototypeNames : list string :=
  ["constructor"; "hasOwnProperty"; "isPrototypeOf"; "propertyIsEnumerable";
   "toLocaleString"; "toString"; "valueOf"; "__proto__";
   "__defineGetter__"; "__defineSetter__"; "__lookupGetter__";
   "__lookupSetter__"].

(** [key] names no inherited property. *)
Definition own_key (key : string) : Prop := key ∉ objectPrototypeNames.

(** The user types [values], one [input] event each. *)
Definition typing (values : list string) : list Event :=
  map (λ value, Dom (Input value)) values.

End Client.

(** ** Sample data *)

Module Samples.

Definition marketing : Category :=
  {| cat_id := "marketing"; cat_name := "Marketing";
     cat_description := "Campaigns"; iconName := "Megaphone";
     promptCount := 1; gradient := "from-pink-500" |}.

Definition coding : Category :=
  {| cat_id := "coding"; cat_name := "Coding";
     cat_description := "Programs"; iconName := "Code";
     promptCount := 1; gradient := "from-blue-500" |}.

Definition slogan : Prompt :=
  {| id := "p1"; categoryId := "marketing"; title := "Slogan";
     shortDescription := "A short slogan"; fullDescription := None;
     content := None; tags := ["Brand"] |}.

Definition review : Prompt :=
  {| id := "p2"; categoryId := "coding"; title := "Code review";
     shortDescription := "Reviews a patch"; fullDescription := None;
     content := None; tags := ["quality"] |}.

Definition review_full : Prompt :=
  {| id := "p2"; categoryId := "coding"; title := "Code review";
     shortDescription := "Reviews a patch";
     fullDescription := Some "Reviews a patch line by line";
     content := Some "Review the following patch"; tags := ["quality"] |}.

(** A [data/] directory of the ESM server in which the file of the
    category [marketing] is missing. *)
Definition esm_world : world Server.Doc :=
  World {[ Server.categoriesPath :=
             Json (Server.CategoriesDoc [marketing; coding]);
           Server.categoryPath "coding" :=
             Json (Server.CategoryDoc [review]) ]}
        ∅.

(** A category without prompts. *)
Definition esm_empty_category : world Server.Doc :=
  World {[ Server.categoryPath "coding" := Json (Server.CategoryDoc []) ]} ∅.

Definition general : Portal.PCategory :=
  {| Portal.pc_id := "general"; Portal.pc_name := "General";
     Portal.pc_image := "*"; Portal.pc_promptCount := 1 |}.

Definition alpha : Portal.PPrompt :=
  {| Portal.pp_id := "alpha"; Portal.pp_categoryId := "general";
     Portal.pp_title := "Alpha"; Portal.pp_description := "first";
     Portal.pp_prompt := "write xyz code" |}.

Definition alpha_result : Portal.SearchResult :=
  {| Portal.sr_id := "alpha"; Portal.sr_categoryId := "general";
     Portal.sr_categoryName := "General"; Portal.sr_title := "Alpha";
     Portal.sr_description := "first" |}.

(** A [data/] directory of the portal with one prompt. *)
Definition portal_world : world Portal.Doc :=
  World {[ Portal.categoriesPath := Json (Portal.CategoriesDoc [general]);
           Portal.promptFilePath "alpha.json" :=
             Json (Portal.PromptDoc alpha) ]}
        {[ Portal.promptsDir := ["alpha.json"] ]}.

Definition portal_empty_category : world Portal.Doc :=
  World {[ Portal.categoryPath "general" := Json (Portal.CategoryDoc []) ]} ∅.

Definition beta_result : Portal.SearchResult :=
  {| Portal.sr_id := "beta"; Portal.sr_categoryId := "general";
     Portal.sr_categoryName := "General"; Portal.sr_title := "Beta";
     Portal.sr_description := "second" |}.

(** A data service that answers a search by one prompt that carries the
    query as its title. *)
Definition echo (q : string) : Prompt :=
  {| id := q; categoryId := "coding"; title := q;
     shortDescription := ""; fullDescription := None; content := None;
     tags := [] |}.

Definition service : App.Service :=
  {| App.allCategories := [marketing; coding];
     App.promptsOf := λ c, if bool_decide (c = "coding") then [review] else [slogan];
     App.resultsOf := λ q, [echo q];
     App.promptOf := λ i, if bool_decide (i = "p2") then Some review_full else None |}.

(** A server of the portal that knows one prompt and finds it for every
    query but [ab]. *)
Definition backend : Client.Backend :=
  {| Client.categoriesOf := [general];
     Client.promptsIn := λ _, [];
     Client.promptData := λ i, if bool_decide (i = "alpha") then Some alpha else None;
     Client.resultsFor := λ q, if bool_decide (q = "ab") then [beta_result]
                               else [alpha_result] |}.

(** The component in the view of the category [coding], idle. *)
Definition in_coding : App.State :=
  {| App.view := App.category; App.activeCategoryId := Some "coding";
     App.categories := [marketing; coding]; App.prompts := [review];
     App.searchQuery := ""; App.loading := false;
     App.loadingPrompts := false; App.selectedPrompt := None;
     App.isModalOpen := false; App.inflight := [] |}.

(** The component in the home view, idle, after a visit to [coding]. *)
Definition at_home : App.State :=
  {| App.view := App.home; App.activeCategoryId := None;
     App.categories := [marketing; coding]; App.prompts := [review];
     App.searchQuery := ""; App.loading := false;
     App.loadingPrompts := false; App.selectedPrompt := None;
     App.isModalOpen := false; App.inflight := [] |}.

(** A [data/] directory of the portal whose [data/prompts] also holds a
    file that is not JSON by name and one that is not JSON by content. *)
Definition portal_broken_world : world Portal.Doc :=
  World {[ Portal.categoriesPath := Json (Portal.CategoriesDoc [general]);
           Portal.promptFilePath "alpha.json" := Json (Portal.PromptDoc alpha);
           Portal.promptFilePath "broken.json" := Garbled ]}
        {[ Portal.promptsDir := ["alpha.json"; "notes.txt"; "broken.json"] ]}.

(** The same directory without the broken file. *)
Definition portal_mixed_world : world Portal.Doc :=
  World {[ Portal.categoriesPath := Json (Portal.CategoriesDoc [general]);
           Portal.promptFilePath "alpha.json" := Json (Portal.PromptDoc alpha) ]}
        {[ Portal.promptsDir := ["notes.txt"; "alpha.json"] ]}.

(** Prompt files of the two servers, one of them unparseable. *)
Definition esm_prompts : world Server.Doc :=
  World {[ Server.promptPath "p2" := Json (Server.PromptDoc review_full);
           Server.promptPath "bad" := Garbled;
           Server.categoryPath "bad" := Garbled;
           Server.categoriesPath := Garbled ]} ∅.

Definition portal_prompts : world Portal.Doc :=
  World {[ Portal.promptPath "alpha" := Json (Portal.PromptDoc alpha);
           Portal.promptPath "bad" := Garbled;
           Portal.categoryPath "bad" := Garbled;
           Portal.categoriesPath := Garbled ]} ∅.

(** A category index in which the identifier [general] occurs twice and
    one category has no name. *)
Definition general_again : Portal.PCategory :=
  {| Portal.pc_id := "general"; Portal.pc_name := "Everything";
     Portal.pc_image := "*"; Portal.pc_promptCount := 0 |}.

Definition nameless : Portal.PCategory :=
  {| Portal.pc_id := "misc"; Portal.pc_name := "";
     Portal.pc_image := "?"; Portal.pc_promptCount := 0 |}.

End Samples.

(** * Properties *)

(** ** Strings *)

Section Strings.

Lemma append_nil_l (a : string) : "" +:+ a = a.
Proof. reflexivity. Qed.

Lemma append_cons (c : ascii) (a b : string) :
  String c a +:+ b = String c (a +:+ b).
Proof. reflexivity. Qed.

Lemma length_append (a b : string) :
  String.length (a +:+ b) = String.length a + String.length b.
Proof.
  induction a as [|c a IH]; [done|]. rewrite append_cons. simpl. by rewrite IH.
Qed.

Lemma append_nil_r (a : string) : a +:+ "" = a.
Proof. induction a as [|c a IH]; [done|]. by rewrite append_cons, IH. Qed.

Lemma append_assoc (a b c : string) : (a +:+ b) +:+ c = a +:+ b +:+ c.
Proof. induction a as [|x a IH]; [done|]. by rewrite !append_cons, IH. Qed.

Lemma length_toLowerCase (s : string) :
  String.length (toLowerCase s) = String.length s.
Proof. induction s as [|c s IH]; simpl; [done | by rewrite IH]. Qed.

Lemma startsWith_spec (s p : string) :
  startsWith s p = true ↔ ∃ post, s = p +:+ post.
Proof.
  revert s. induction p as [|a p IH]; intros [|b s]; simpl.
  - split; [intros _; by exists "" | done].
  - split; [intros _; by exists (String b s) | done].
  - split; [done | intros [post Hpost]; discriminate].
  - rewrite andb_true_iff, bool_decide_eq_true, IH. split.
    + intros [-> [post ->]]. by exists post.
    + intros [post Hpost]. rewrite append_cons in Hpost.
      injection Hpost as -> ->. eauto.
Qed.

Lemma includes_spec (s sub : string) :
  includes s sub = true ↔ occurs_in sub s.
Proof.
  unfold occurs_in. induction s as [|c s IH].
  - change (includes "" sub) with (startsWith "" sub || false).
    rewrite orb_false_r. split.
    + intros [post Hpost]%startsWith_spec. by exists "", post.
    + intros [[|x pre] [post Hpost]]; [|discriminate].
      apply startsWith_spec. by exists post.
  - change (includes (String c s) sub)
      with (startsWith (String c s) sub || includes s sub).
    rewrite orb_true_iff, IH. split.
    + intros [Hstart | (pre & post & ->)].
      * apply startsWith_spec in Hstart as [post Hpost].
        by exists "", post.
      * by exists (String c pre), post.
    + intros [[|x pre] [post Hpost]].
      * left. apply startsWith_spec. by exists post.
      * right. rewrite append_cons in Hpost.
        injection Hpost as -> ->. by exists pre, post.
Qed.

Lemma includes_false (s sub : string) :
  includes s sub = false ↔ ¬ occurs_in sub s.
Proof. rewrite <- includes_spec. by destruct (includes s sub). Qed.

Lemma truthy_length (s : string) :
  truthy s = negb (String.length s =? 0).
Proof. by destruct s. Qed.

Lemma rev_app_spec (a b : string) :
  String.rev_app a b = String.rev a +:+ b.
Proof.
  unfold String.rev. revert b.
  induction a as [|c a IH]; intros b; simpl; [done|].
  rewrite IH, (IH (String c "")). by rewrite append_assoc.
Qed.

Lemma rev_cons (c : ascii) (s : string) :
  String.rev (String c s) = String.rev s +:+ String c "".
Proof. unfold String.rev at 1. simpl. apply rev_app_spec. Qed.

Lemma rev_empty_inv (s : string) : String.rev s = "" → s = "".
Proof.
  destruct s as [|c s]; [done|]. rewrite rev_cons.
  intros H. apply (f_equal String.length) in H.
  rewrite length_append in H. simpl in H. lia.
Qed.

Lemma blank_app (a b : string) : blank (a +:+ b) = blank a && blank b.
Proof.
  induction a as [|c a IH]; [done|]. rewrite append_cons. simpl.
  by rewrite IH, andb_assoc.
Qed.

Lemma blank_rev (s : string) : blank (String.rev s) = blank s.
Proof.
  induction s as [|c s IH]; [done|].
  rewrite rev_cons, blank_app, IH. simpl.
  rewrite andb_true_r. apply andb_comm.
Qed.

Lemma trimStart_empty (s : string) : trimStart s = "" ↔ blank s = true.
Proof.
  induction s as [|c s IH]; simpl; [done|].
  destruct (Ascii.is_space c); simpl; [done|]. split; discriminate.
Qed.

Lemma blank_trimStart (s : string) :
  blank s = false → blank (trimStart s) = false.
Proof.
  induction s as [|c s IH]; simpl; [done|].
  destruct (Ascii.is_space c) eqn:Hc; simpl; [done|].
  intros _. by rewrite Hc.
Qed.

(** [q.trim() === ''] holds exactly of the strings made of white space. *)
Lemma trim_empty (s : string) : trim s = "" ↔ blank s = true.
Proof.
  unfold trim, trimEnd. split.
  - intros H. apply rev_empty_inv in H. apply trimStart_empty in H.
    rewrite blank_rev in H.
    destruct (blank s) eqn:Hs; [done|].
    apply blank_trimStart in Hs. congruence.
  - intros H. apply trimStart_empty in H. by rewrite H.
Qed.

End Strings.

(** ** The file-system monad *)

Ltac io_unfold :=
  unfold run, mbind, IO_bind, bind, mret, IO_ret, ret, try_catch, readFile,
    existsSync, readdirSync, JSON_parse, required, throw in *.

(** ** The ESM server *)

Section EsmServer.

Import Server.

Lemma pushCategory_eval (w : world Doc) acc c log :
  ∃ log', pushCategory acc c w log = (Some (acc ++ readablePrompts w c), log').
Proof.
  unfold pushCategory, readablePrompts. io_unfold.
  destruct (files w !! categoryPath (cat_id c)) as [[|[cs|ps|p]]|];
    simpl; rewrite ?app_nil_r; eauto.
Qed.

Lemma collectPrompts_eval (w : world Doc) cats acc log :
  ∃ log', collectPrompts cats acc w log = (Some (acc ++ collection w cats), log').
Proof.
  revert acc log. induction cats as [|c cats IH]; intros acc log.
  - exists log. unfold collection. simpl. by rewrite app_nil_r.
  - simpl. unfold mbind, IO_bind, bind.
    destruct (pushCategory_eval w acc c log) as [log1 ->].
    destruct (IH (acc ++ readablePrompts w c) log1) as [log2 ->].
    exists log2. unfold collection. simpl. by rewrite app_assoc.
Qed.

(** The search on a readable [categories.json]: always a success, with
    the matches of the collection. *)
Lemma search_eval (w : world Doc) q cats :
  files w !! categoriesPath = Some (Json (CategoriesDoc cats)) →
  2 ≤ String.length q →
  fst (run (search (Some q)) w) =
    Some (json (JsonPrompts
                  (List.filter (matchesQuery (toLowerCase q))
                               (collection w cats)))).
Proof.
  intros Hcats Hlen. unfold search. simpl.
  rewrite truthy_length, length_toLowerCase.
  destruct (String.length q =? 0) eqn:H0; [apply Nat.eqb_eq in H0; lia|].
  destruct (String.length q <? 2) eqn:H2; [apply Nat.ltb_lt in H2; lia|].
  simpl. io_unfold. rewrite Hcats. simpl.
  destruct (collectPrompts_eval w cats [] [ReadFile categoriesPath])
    as [log' ->].
  done.
Qed.

Lemma matchesQuery_spec q p :
  matchesQuery (toLowerCase q) p = true ↔ containsQuery q p.
Proof.
  unfold matchesQuery, containsQuery, ci_contains.
  rewrite !orb_true_iff, !includes_spec, existsb_exists.
  setoid_rewrite includes_spec. setoid_rewrite list_elem_of_In.
  tauto.
Qed.

Lemma sublist_filter_bool {A} (f : A → bool) (l : list A) :
  sublist (List.filter f l) l.
Proof.
  induction l as [|x l IH]; simpl; [constructor|].
  destruct (f x); by constructor.
Qed.

Lemma unreadable_contributes_nothing (w : world Doc) c :
  unreadable w c → readablePrompts w c = [].
Proof.
  unfold unreadable, readablePrompts. intros H.
  destruct (files w !! categoryPath (cat_id c)) as [[|[cs|ps|p]]|]; try done.
  by destruct (H ps).
Qed.

End EsmServer.

(** ** The portal server *)

Section PortalServer.

Import Portal.

Lemma scanPrompts_eval (w : world Doc) sq m names ps acc log :
  holds w (jsonFiles names) ps →
  ∃ log', scanPrompts sq m names acc w log =
          (Some (acc ++ map (toResult m) (List.filter (matchesQuery sq) ps)),
           log').
Proof.
  unfold holds, jsonFiles.
  revert ps acc log. induction names as [|file names IH]; intros ps acc log.
  - simpl. intros Hps. apply Forall2_nil_inv_l in Hps as ->.
    exists log. simpl. by rewrite app_nil_r.
  - simpl. destruct (endsWith file ".json") eqn:Hjson; [|by apply IH].
    intros Hps. apply Forall2_cons_inv_l in Hps as (p & ps' & Hp & Hps & ->).
    io_unfold. rewrite Hp. simpl.
    destruct (matchesQuery sq p) eqn:Hmatch; simpl.
    + destruct (IH ps' (acc ++ [toResult m p]) (log ++ [ReadFile (promptFilePath file)]) Hps)
        as [log' ->].
      exists log'. by rewrite <- app_assoc.
    + by apply IH.
Qed.

Lemma blank_truthy q : blank q = false → truthy q = true.
Proof. by destruct q. Qed.

(** The search on a readable [data/] directory. *)
Lemma portal_search_eval (w : world Doc) q cats names ps :
  blank q = false →
  files w !! categoriesPath = Some (Json (CategoriesDoc cats)) →
  dirs w !! promptsDir = Some names →
  holds w (jsonFiles names) ps →
  fst (run (search (Some q)) w) =
    Some (json (JsonResults
                  (map (toResult (buildCategoriesMap cats))
                       (List.filter (matchesQuery (trim (toLowerCase q))) ps)))).
Proof.
  intros Hq Hcats Hdir Hps. unfold search.
  rewrite (blank_truthy q Hq). simpl.
  rewrite bool_decide_eq_false_2; [|rewrite trim_empty; congruence].
  io_unfold. rewrite Hcats. simpl. rewrite Hdir.
  simpl.
  match goal with
  | |- context [scanPrompts ?sq ?m ?l ?acc w ?log] =>
      destruct (scanPrompts_eval w sq m l ps acc log Hps) as [log' ->]
  end.
  done.
Qed.

Lemma portal_matchesQuery_spec q p :
  matchesQuery (trim (toLowerCase q)) p = true ↔ containsNormalised q p.
Proof.
  unfold matchesQuery, containsNormalised.
  rewrite !orb_true_iff, !includes_spec. tauto.
Qed.

End PortalServer.

(** ** The search endpoint *)

(** The portal server on the query [a]: three accesses and one result. *)
Example portal_search_one_character :
  run (Portal.search (Some "a")) Samples.portal_world
  = (Some (Portal.json (Portal.JsonResults [Samples.alpha_result])),
     [ReadFile "data/categories.json"; ReadDir "data/prompts";
      ReadFile "data/prompts/alpha.json"]).
Proof. vm_compute. reflexivity. Qed.

(** C3, as the specification states it, fails on the portal server: the
    one-character query [a] is searched for, the files are read and a
    result is returned. *)
Lemma portal_searches_one_character :
  ¬ Portal.short_query_short_circuits.
Proof.
  intros H. specialize (H Samples.portal_world "a").
  assert (String.length "a" < 2) as Hlen by (simpl; lia).
  specialize (H Hlen). vm_compute in H. discriminate H.
Qed.

Section AccessLog.

Context {D : Type}.

Lemma appends_ret {A} (a : A) : appends (D := D) (mret a).
Proof. intros w log. exists []. simpl. by rewrite app_nil_r. Qed.

Lemma appends_throw {A} : appends (D := D) (@throw D A).
Proof. intros w log. exists []. simpl. by rewrite app_nil_r. Qed.

Lemma appends_bind {A B} (m : IO D A) (k : A → IO D B) :
  appends m → (∀ a, appends (k a)) → appends (m ≫= k).
Proof.
  intros Hm Hk w log. unfold mbind, IO_bind, bind.
  destruct (Hm w log) as [more Hmore].
  destruct (m w log) as [[a|] log1]; simpl in Hmore; subst log1.
  - destruct (Hk a w (log ++ more)) as [more' Hmore'].
    exists (more ++ more'). by rewrite Hmore', app_assoc.
  - by exists more.
Qed.

Lemma appends_try_catch {A} (m handler : IO D A) :
  appends m → appends handler → appends (try_catch m handler).
Proof.
  intros Hm Hh w log. unfold try_catch.
  destruct (Hm w log) as [more Hmore].
  destruct (m w log) as [[a|] log1]; simpl in Hmore; subst log1.
  - by exists more.
  - destruct (Hh w (log ++ more)) as [more' Hmore'].
    exists (more ++ more'). by rewrite Hmore', app_assoc.
Qed.

Lemma appends_readFile path : appends (D := D) (readFile path).
Proof.
  intros w log. exists [ReadFile path]. unfold readFile.
  by destruct (files w !! path).
Qed.

Lemma appends_readdirSync path : appends (D := D) (readdirSync path).
Proof.
  intros w log. exists [ReadDir path]. unfold readdirSync.
  by destruct (dirs w !! path).
Qed.

Lemma appends_JSON_parse (data : file D) : appends (JSON_parse data).
Proof. destruct data; [apply appends_throw | apply appends_ret]. Qed.

Lemma appends_required {A} (o : option A) : appends (D := D) (required o).
Proof. destruct o; [apply appends_ret | apply appends_throw]. Qed.

(** A handler that starts by reading [path] has [path] as its first
    access, whatever happens next. *)
Lemma first_access {A} path (k : file D → IO D A) (handler : IO D A) w :
  (∀ c, appends (k c)) → appends handler →
  ∃ rest, snd (run (try_catch (readFile path ≫= k) handler) w)
          = ReadFile path :: rest.
Proof.
  intros Hk Hh.
  destruct (appends_try_catch (readFile path ≫= k) handler
              (appends_bind _ _ (appends_readFile path) Hk) Hh w []) as [more Hmore].
  unfold run. rewrite Hmore. simpl.
  revert Hmore. unfold try_catch, mbind, IO_bind, bind, readFile.
  destruct (files w !! path) as [c|]; simpl.
  - destruct (Hk c w [ReadFile path]) as [more1 Hmore1].
    destruct (k c w [ReadFile path]) as [[a|] log1]; simpl in *; subst log1.
    + intros <-. by exists more1.
    + destruct (Hh w (ReadFile path :: more1)) as [more2 Hmore2].
      rewrite Hmore2. intros <-. by exists (more1 ++ more2).
  - destruct (Hh w [ReadFile path]) as [more2 Hmore2].
    rewrite Hmore2. intros <-. by exists more2.
Qed.

End AccessLog.

Lemma appends_collectPrompts cats acc :
  appends (Server.collectPrompts cats acc).
Proof.
  revert acc. induction cats as [|c cats IH]; intros acc; simpl.
  - apply appends_ret.
  - apply appends_bind; [|intros allPrompts; apply IH].
    apply appends_try_catch; [|apply appends_ret].
    apply appends_bind; [apply appends_readFile|]. intros data.
    apply appends_bind; [apply appends_JSON_parse|]. intros doc.
    apply appends_bind; [apply appends_required|]. intros prompts.
    apply appends_ret.
Qed.

Lemma appends_scanPrompts sq m names acc :
  appends (Portal.scanPrompts sq m names acc).
Proof.
  revert acc. induction names as [|file names IH]; intros acc; simpl.
  - apply appends_ret.
  - destruct (endsWith file ".json"); [|apply IH].
    apply appends_bind; [apply appends_readFile|]. intros data.
    apply appends_bind; [apply appends_JSON_parse|]. intros doc.
    apply appends_bind; [apply appends_required|]. intros promptData.
    destruct (Portal.matchesQuery sq promptData); apply IH.
Qed.

(** C3 (amended). Each search endpoint has a guard, past which nothing
    is read and the empty sequence is returned, and short of which the
    first thing done is to read [categories.json]. On the ESM server
    the guard is that the lower-cased query has fewer than two
    characters; on the portal server it is that the trimmed query is
    empty, so that a query of one character that is not white space is
    searched for. *)
Theorem short_query_reads_nothing :
  (∀ (w : world Server.Doc) (q : string),
     String.length (toLowerCase q) < 2 →
     run (Server.search (Some q)) w
     = (Some (Server.json (Server.JsonPrompts [])), []))
  ∧
  (∀ (w : world Server.Doc) (q : string),
     2 ≤ String.length (toLowerCase q) →
     ∃ rest, snd (run (Server.search (Some q)) w)
             = ReadFile Server.categoriesPath :: rest)
  ∧
  (∀ (w : world Portal.Doc) (q : string),
     trim q = "" →
     run (Portal.search (Some q)) w
     = (Some (Portal.json (Portal.JsonResults [])), []))
  ∧
  (∀ (w : world Portal.Doc) (q : string),
     trim q ≠ "" →
     ∃ rest, snd (run (Portal.search (Some q)) w)
             = ReadFile Portal.categoriesPath :: rest).
Proof.
  split; [|split; [|split]].
  - intros w q Hlen. unfold Server.search. simpl.
    rewrite truthy_length.
    destruct (String.length (toLowerCase q) =? 0) eqn:H0; [done|].
    destruct (String.length (toLowerCase q) <? 2) eqn:H2; [done|].
    apply Nat.ltb_ge in H2. lia.
  - intros w q Hlen. unfold Server.search. simpl.
    rewrite truthy_length.
    destruct (String.length (toLowerCase q) =? 0) eqn:H0;
      [apply Nat.eqb_eq in H0; lia|].
    destruct (String.length (toLowerCase q) <? 2) eqn:H2;
      [apply Nat.ltb_lt in H2; lia|].
    simpl. apply first_access; [|apply appends_ret].
    intros data. apply appends_bind; [apply appends_JSON_parse|]. intros doc.
    apply appends_bind; [apply appends_required|]. intros categories.
    apply appends_bind; [apply appends_collectPrompts|]. intros allPrompts.
    apply appends_ret.
  - intros w q Hq. unfold Portal.search. rewrite Hq.
    rewrite bool_decide_eq_true_2 by done.
    by rewrite orb_true_r.
  - intros w q Hq. unfold Portal.search.
    assert (truthy q = true) as ->.
    { destruct q; [by destruct Hq | done]. }
    rewrite bool_decide_eq_false_2 by done. simpl.
    apply first_access; [|apply appends_ret].
    intros data. apply appends_bind; [apply appends_JSON_parse|]. intros doc.
    apply appends_bind; [apply appends_required|]. intros categories.
    apply appends_bind; [apply appends_readdirSync|]. intros promptFiles.
    apply appends_bind; [apply appends_scanPrompts|]. intros results.
    apply appends_ret.
Qed.

Lemma short_query_reads_nothing_witness :
  run (Server.search (Some "a")) Samples.esm_world
  = (Some (Server.json (Server.JsonPrompts [])), [])
  ∧ (∃ rest, snd (run (Server.search (Some "ab")) Samples.esm_world)
             = ReadFile Server.categoriesPath :: rest)
  ∧ run (Portal.search (Some "  ")) Samples.portal_world
    = (Some (Portal.json (Portal.JsonResults [])), [])
  ∧ (∃ rest, snd (run (Portal.search (Some "a")) Samples.portal_world)
             = ReadFile Portal.categoriesPath :: rest).
Proof.
  split; [|split; [|split]].
  - apply (proj1 short_query_reads_nothing Samples.esm_world "a").
    simpl. lia.
  - apply (proj1 (proj2 short_query_reads_nothing) Samples.esm_world "ab").
    simpl. lia.
  - apply (proj1 (proj2 (proj2 short_query_reads_nothing))
             Samples.portal_world "  ").
    reflexivity.
  - apply (proj2 (proj2 (proj2 short_query_reads_nothing))
             Samples.portal_world "a").
    discriminate.
Defined.

(** The portal server on the query [xyz], which occurs in the template
    text of [alpha] only. *)
Example portal_search_template_text :
  fst (run (Portal.search (Some "xyz")) Samples.portal_world)
  = Some (Portal.json (Portal.JsonResults [Samples.alpha_result]))
  ∧ includes (toLowerCase (Portal.pp_title Samples.alpha)) "xyz" = false
  ∧ includes (toLowerCase (Portal.pp_description Samples.alpha)) "xyz" = false.
Proof. vm_compute. done. Qed.

(** C4, as the specification states it, fails on the portal server: the
    prompt [alpha] is a result for [xyz], which occurs in the text of its
    template and in neither its title nor its description. *)
Lemma portal_matches_template_text :
  ¬ Portal.matches_title_description_tags.
Proof.
  intros H.
  specialize (H Samples.portal_world "xyz" ["alpha.json"] [Samples.alpha]
                [Samples.general] [Samples.alpha_result] Samples.alpha).
  assert (Samples.alpha_result ∈ [Samples.alpha_result]) as Hin
    by apply list_elem_of_here.
  apply H in Hin.
  - destruct Hin as [Hc | Hc]; apply includes_spec in Hc;
      vm_compute in Hc; discriminate Hc.
  - simpl. lia.
  - reflexivity.
  - reflexivity.
  - repeat constructor.
  - vm_compute. reflexivity.
  - apply list_elem_of_here.
Qed.

(** C4 (amended). On the ESM server, for a query of two characters or
    more, the results are the prompts of the backing collection in which
    the query occurs, case-insensitively, in the title, the short
    description or a tag, in storage order. On the portal server, for a
    query that is not blank, the results are the prompts of
    [data/prompts] in which the trimmed, lower-cased query occurs in the
    lower-cased title, description or template text, in the order of the
    directory listing; tags are not consulted. *)
Theorem search_matches_in_storage_order :
  (∀ (w : world Server.Doc) (q : string) (cats : list Category),
     2 ≤ String.length q →
     files w !! Server.categoriesPath = Some (Json (Server.CategoriesDoc cats)) →
     ∃ results,
       fst (run (Server.search (Some q)) w)
       = Some (Server.json (Server.JsonPrompts results))
       ∧ sublist results (Server.collection w cats)
       ∧ ∀ p, p ∈ results ↔
              p ∈ Server.collection w cats ∧ Server.containsQuery q p)
  ∧
  (∀ (w : world Portal.Doc) (q : string) (cats : list Portal.PCategory)
     (names : list string) (ps : list Portal.PPrompt),
     blank q = false →
     files w !! Portal.categoriesPath = Some (Json (Portal.CategoriesDoc cats)) →
     dirs w !! Portal.promptsDir = Some names →
     Portal.holds w (Portal.jsonFiles names) ps →
     ∃ kept,
       fst (run (Portal.search (Some q)) w)
       = Some (Portal.json (Portal.JsonResults
                 (map (Portal.toResult (Portal.buildCategoriesMap cats)) kept)))
       ∧ sublist kept ps
       ∧ ∀ p, p ∈ kept ↔ p ∈ ps ∧ Portal.containsNormalised q p).
Proof.
  split.
  - intros w q cats Hlen Hcats.
    exists (List.filter (Server.matchesQuery (toLowerCase q))
                        (Server.collection w cats)).
    split; [by apply search_eval|].
    split; [apply sublist_filter_bool|].
    intros p. rewrite !list_elem_of_In, filter_In, matchesQuery_spec. done.
  - intros w q cats names ps Hq Hcats Hdir Hps.
    exists (List.filter (Portal.matchesQuery (trim (toLowerCase q))) ps).
    split; [by apply portal_search_eval with names|].
    split; [apply sublist_filter_bool|].
    intros p.
    rewrite !list_elem_of_In, filter_In, portal_matchesQuery_spec. done.
Qed.

Lemma search_matches_in_storage_order_witness :
  (∃ results,
     fst (run (Server.search (Some "CODE")) Samples.esm_world)
     = Some (Server.json (Server.JsonPrompts results))
     ∧ sublist results
         (Server.collection Samples.esm_world [Samples.marketing; Samples.coding])
     ∧ ∀ p, p ∈ results ↔
            p ∈ Server.collection Samples.esm_world
                  [Samples.marketing; Samples.coding]
            ∧ Server.containsQuery "CODE" p)
  ∧
  (∃ kept,
     fst (run (Portal.search (Some " XYZ ")) Samples.portal_world)
     = Some (Portal.json (Portal.JsonResults
               (map (Portal.toResult (Portal.buildCategoriesMap [Samples.general]))
                    kept)))
     ∧ sublist kept [Samples.alpha]
     ∧ ∀ p, p ∈ kept ↔ p ∈ [Samples.alpha] ∧ Portal.containsNormalised " XYZ " p).
Proof.
  split.
  - apply (proj1 search_matches_in_storage_order Samples.esm_world "CODE"
             [Samples.marketing; Samples.coding]).
    + simpl. lia.
    + reflexivity.
  - apply (proj2 search_matches_in_storage_order Samples.portal_world " XYZ "
             [Samples.general] ["alpha.json"] [Samples.alpha]).
    + reflexivity.
    + reflexivity.
    + reflexivity.
    + repeat constructor.
Defined.

(** C10. On the ESM server, a category whose file cannot be read or
    parsed does not fail the search: the response is a success made of
    the matches found in the other categories. *)
Theorem search_omits_unreadable_category
    (w : world Server.Doc) (q : string) (before after : list Category)
    (broken : Category) :
  2 ≤ String.length q →
  files w !! Server.categoriesPath
    = Some (Json (Server.CategoriesDoc (before ++ broken :: after))) →
  Server.unreadable w broken →
  fst (run (Server.search (Some q)) w)
  = Some {| Server.status := 200;
            Server.body :=
              Server.JsonPrompts
                (List.filter (Server.matchesQuery (toLowerCase q))
                   (Server.collection w (before ++ after))) |}.
Proof.
  intros Hlen Hcats Hbroken.
  rewrite (search_eval w q _ Hcats Hlen). unfold Server.json.
  do 3 f_equal. unfold Server.collection.
  rewrite !flat_map_app. simpl.
  by rewrite (unreadable_contributes_nothing w broken Hbroken).
Qed.

Lemma search_omits_unreadable_category_witness :
  fst (run (Server.search (Some "review")) Samples.esm_world)
  = Some {| Server.status := 200;
            Server.body :=
              Server.JsonPrompts
                (List.filter (Server.matchesQuery (toLowerCase "review"))
                   (Server.collection Samples.esm_world ([] ++ [Samples.coding]))) |}.
Proof.
  apply (search_omits_unreadable_category Samples.esm_world "review" []
           [Samples.coding] Samples.marketing).
  - simpl. lia.
  - reflexivity.
  - intros ps. vm_compute. discriminate.
Defined.

(** ** Listing the prompts of a category *)

(** C7. On both servers the listing of a category whose file exists and
    parses is a success that carries the file, a category without prompts
    included; the listing of a category that has no file is the response
    404; a success is never that response. *)
Theorem listPromptsByCategory_found_or_404 (categoryId : string) :
  (∀ (w : world Server.Doc) (ps : list Prompt),
     files w !! Server.categoryPath categoryId
       = Some (Json (Server.CategoryDoc ps)) →
     fst (run (Server.getCategory categoryId) w)
     = Some {| Server.status := 200;
               Server.body := Server.JsonDoc (Server.CategoryDoc ps) |})
  ∧ (∀ (w : world Server.Doc),
       files w !! Server.categoryPath categoryId = None →
       fst (run (Server.getCategory categoryId) w)
       = Some {| Server.status := 404;
                 Server.body := Server.JsonError "Category not found" |})
  ∧ (∀ (w : world Portal.Doc) (ps : list Portal.PSummary),
       files w !! Portal.categoryPath categoryId
         = Some (Json (Portal.CategoryDoc ps)) →
       fst (run (Portal.getCategory categoryId) w)
       = Some {| Portal.status := 200;
                 Portal.body := Portal.JsonDoc (Portal.CategoryDoc ps) |})
  ∧ (∀ (w : world Portal.Doc),
       files w !! Portal.categoryPath categoryId = None →
       fst (run (Portal.getCategory categoryId) w)
       = Some {| Portal.status := 404;
                 Portal.body := Portal.JsonError "Категория не найдена" |}).
Proof.
  split; [|split; [|split]].
  - intros w ps Hfile. unfold Server.getCategory. io_unfold. by rewrite Hfile.
  - intros w Hfile. unfold Server.getCategory. io_unfold. by rewrite Hfile.
  - intros w ps Hfile. unfold Portal.getCategory. io_unfold.
    rewrite Hfile. rewrite bool_decide_eq_true_2 by eauto. simpl.
    by rewrite Hfile.
  - intros w Hfile. unfold Portal.getCategory. io_unfold.
    rewrite Hfile. rewrite bool_decide_eq_false_2; [done|].
    by intros [x Hx].
Qed.

Lemma listPromptsByCategory_found_or_404_witness :
  fst (run (Server.getCategory "coding") Samples.esm_empty_category)
  = Some {| Server.status := 200;
            Server.body := Server.JsonDoc (Server.CategoryDoc []) |}
  ∧ fst (run (Server.getCategory "coding") Samples.esm_world)
    = Some {| Server.status := 200;
              Server.body := Server.JsonDoc (Server.CategoryDoc [Samples.review]) |}
  ∧ fst (run (Server.getCategory "nowhere") Samples.esm_world)
    = Some {| Server.status := 404;
              Server.body := Server.JsonError "Category not found" |}
  ∧ fst (run (Portal.getCategory "general") Samples.portal_empty_category)
    = Some {| Portal.status := 200;
              Portal.body := Portal.JsonDoc (Portal.CategoryDoc []) |}
  ∧ fst (run (Portal.getCategory "nowhere") Samples.portal_world)
    = Some {| Portal.status := 404;
              Portal.body := Portal.JsonError "Категория не найдена" |}.
Proof.
  split; [|split; [|split; [|split]]].
  - apply (proj1 (listPromptsByCategory_found_or_404 "coding")). reflexivity.
  - apply (proj1 (listPromptsByCategory_found_or_404 "coding")). reflexivity.
  - apply (proj1 (proj2 (listPromptsByCategory_found_or_404 "nowhere"))).
    reflexivity.
  - apply (proj1 (proj2 (proj2 (listPromptsByCategory_found_or_404 "general")))).
    reflexivity.
  - apply (proj2 (proj2 (proj2 (listPromptsByCategory_found_or_404 "nowhere")))).
    reflexivity.
Defined.

(** ** The React front end *)

Section ReactApp.

Import App.

Lemma effect_fields st :
  deps (effect st) = deps st
  ∧ prompts (effect st) = prompts st
  ∧ selectedPrompt (effect st) = selectedPrompt st
  ∧ isModalOpen (effect st) = isModalOpen st
  ∧ inflight (effect st) = inflight st ++ option_list (effectCall st).
Proof.
  unfold effect. destruct (effectCall st) as [c|]; simpl;
    by rewrite ?app_nil_r.
Qed.

Lemma rerender_fields before after :
  deps (rerender before after) = deps after
  ∧ prompts (rerender before after) = prompts after
  ∧ selectedPrompt (rerender before after) = selectedPrompt after
  ∧ isModalOpen (rerender before after) = isModalOpen after.
Proof.
  unfold rerender. case_decide; [done|].
  destruct (effect_fields after) as (? & ? & ? & ? & _). done.
Qed.

(** The call of the effect is a function of the dependency array. *)
Lemma effectCall_deps st st' :
  deps st = deps st' → effectCall st = effectCall st'.
Proof.
  unfold deps, effectCall. intros [= -> -> ->]. done.
Qed.

Lemma effectCall_isListCall st c :
  effectCall st = Some c → isListCall c = true.
Proof.
  unfold effectCall.
  destruct (view st), (activeCategoryId st) as [a|];
    repeat case_match; by intros [= <-].
Qed.

(** The dependencies changed: the effect runs, and the call it makes is
    the youngest outstanding one. *)
Lemma rerender_changed before after :
  deps before ≠ deps after →
  inflight (rerender before after)
  = inflight after ++ option_list (effectCall after).
Proof.
  intros Hne. unfold rerender. rewrite decide_False by done.
  apply effect_fields.
Qed.

Lemma rerender_unchanged before after :
  deps before = deps after → rerender before after = after.
Proof. intros Heq. unfold rerender. by rewrite decide_True. Qed.

(** A query of one or two characters entered in the home view only
    stores the query. *)
Lemma handle_short_query st val :
  view st = home →
  String.length val ≤ 2 →
  handle st (SearchChange val) = setSearchQuery val st.
Proof.
  intros Hview Hlen. simpl. unfold handleSearchChange.
  destruct (2 <? String.length val) eqn:H2; [apply Nat.ltb_lt in H2; lia|].
  unfold rerender. case_decide; [done|].
  unfold effect, effectCall. simpl. rewrite Hview. by rewrite H2.
Qed.

Lemma step_selected st e :
  id <$> selectedPrompt (step st e)
  = match e with
    | User (PromptClick promptSummary) => Some (id promptSummary)
    | _ => id <$> selectedPrompt st
    end.
Proof.
  destruct e as [u|i r]; simpl.
  - destruct u; simpl; try done;
      match goal with
      | |- context [rerender ?a ?b] =>
          destruct (rerender_fields a b) as (_ & _ & -> & _)
      end; try done.
    unfold handleSearchChange. by repeat case_match.
  - unfold settle. destruct (inflight st !! i) as [c|]; [|done].
    destruct c, r as [cats|data|[fp|]|]; simpl; try done.
    case_decide as Hid; simpl; [by rewrite Hid | done].
Qed.

Lemma run_selected evs st acc :
  id <$> selectedPrompt st = acc →
  id <$> selectedPrompt (run evs st)
  = foldl (λ acc e, match e with
                    | User (PromptClick promptSummary) => Some (id promptSummary)
                    | _ => acc
                    end) acc evs.
Proof.
  revert st acc. induction evs as [|e evs IH]; intros st acc Hacc; simpl.
  - done.
  - apply IH. rewrite step_selected. destruct e as [[]|]; by rewrite ?Hacc.
Qed.

End ReactApp.

(** ** The detail overlay *)

(** C2. In every run of the component the prompt passed to the overlay
    carries the identifier of the summary that was selected last; and when
    [getPromptById] resolves to a detail, the prompt on display is
    replaced by it if it has the identifier of the detail, and nothing
    but the set of outstanding calls changes otherwise. *)
Theorem overlay_shows_selected_prompt :
  (∀ evs : list App.Event,
     id <$> App.selectedPrompt (App.run evs App.initial) = App.lastSelected evs)
  ∧
  (∀ (st : App.State) (i : nat) (promptId : string) (fullPrompt : Prompt),
     App.inflight st !! i = Some (App.getPromptById promptId) →
     App.settle i (App.FullPrompt (Some fullPrompt)) st
     = App.setInflight (delete i (App.inflight st))
         (if decide (id <$> App.selectedPrompt st = Some (id fullPrompt))
          then App.setSelectedPrompt (λ _, Some fullPrompt) st
          else st)).
Proof.
  split.
  - intros evs. unfold App.lastSelected. by apply run_selected.
  - intros st i promptId fullPrompt Hi. unfold App.settle. rewrite Hi. simpl.
    clear Hi. unfold App.setSelectedPrompt, App.setInflight.
    destruct st; simpl. by case_decide.
Qed.

Lemma overlay_shows_selected_prompt_witness :
  id <$> App.selectedPrompt
           (App.run [App.User (App.PromptClick Samples.slogan);
                     App.User (App.PromptClick Samples.review);
                     App.Settle 1 (App.FullPrompt (Some Samples.slogan));
                     App.Settle 1 (App.FullPrompt (Some Samples.review_full))]
                    App.initial)
  = Some "p2"
  ∧ App.settle 0 (App.FullPrompt (Some Samples.slogan))
      (App.handlePromptClick Samples.review Samples.at_home)
    = App.setInflight []
        (App.handlePromptClick Samples.review Samples.at_home).
Proof.
  split.
  - apply (proj1 overlay_shows_selected_prompt).
  - apply (proj2 overlay_shows_selected_prompt
             (App.handlePromptClick Samples.review Samples.at_home) 0 "p2"
             Samples.slogan).
    reflexivity.
Defined.

Section ClientOverlay.

Import Client.


Lemma closeModal_shows s : shows_loaded_prompt (modal (closeModal s)).
Proof. intros Hvisible. discriminate Hvisible. Qed.





End ClientOverlay.

(** Two prompts are clicked in the portal front end, the first loads
    and the second is answered 404: the overlay is open on the first. *)
Example second_prompt_fails :
  let s := Client.run [Client.Dom (Client.ClickPrompt "alpha");
                       Client.Dom (Client.ClickPrompt "omega");
                       Client.Settle 0 (Client.OkPrompt Samples.alpha);
                       Client.Settle 0 (Client.NotOk 404)] Client.initial in
  Client.inflight s = []
  ∧ Client.modalOverlay_visible (Client.modal s) = true
  ∧ Client.modalTitle (Client.modal s) = "Alpha"
  ∧ Client.alerts s = ["Не удалось загрузить промт. Попробуйте позже."].
Proof. vm_compute. done. Qed.




(** ** Navigation and search in the React front end *)

(** A query of two characters in the view of [coding]: the view stays,
    and the effect fetches the prompts of the category again. *)
Example two_characters_in_category :
  let st := App.handle Samples.in_coding (App.SearchChange "ab") in
  App.view st = App.category
  ∧ App.searchQuery st = "ab"
  ∧ App.inflight st = [App.getPromptsByCategoryId "coding"].
Proof. vm_compute. done. Qed.

(** C5, as the specification states it, fails at the threshold: a query
    of two characters entered in the view of a category leaves the view
    where it is. *)
Lemma query_of_two_stays_in_category :
  ¬ App.query_of_two_returns_home.
Proof.
  intros H. specialize (H Samples.in_coding "ab").
  assert (2 ≤ String.length "ab") as Hlen by (simpl; lia).
  specialize (H eq_refl Hlen). vm_compute in H. discriminate H.
Qed.

(** C5 (amended). A query of more than two characters entered in the
    view of a category switches the view to home, and the search for that
    query is the call then made, from the home view. *)
Theorem long_query_returns_home (st : App.State) (val : string) :
  App.view st = App.category →
  2 < String.length val →
  App.view (App.handle st (App.SearchChange val)) = App.home
  ∧ App.searchQuery (App.handle st (App.SearchChange val)) = val
  ∧ App.effectCall (App.handle st (App.SearchChange val))
    = Some (App.searchPrompts val)
  ∧ App.inflight (App.handle st (App.SearchChange val))
    = App.inflight st ++ [App.searchPrompts val].
Proof.
  intros Hview Hlen. simpl.
  assert (App.handleSearchChange val st
          = App.setView App.home (App.setSearchQuery val st)) as ->.
  { unfold App.handleSearchChange.
    apply Nat.ltb_lt in Hlen. rewrite Hlen.
    rewrite decide_False; [done | congruence]. }
  assert (App.effectCall (App.setView App.home (App.setSearchQuery val st))
          = Some (App.searchPrompts val)) as Hcall.
  { unfold App.effectCall. simpl. apply Nat.ltb_lt in Hlen. by rewrite Hlen. }
  destruct (rerender_fields st (App.setView App.home (App.setSearchQuery val st)))
    as (Hdeps & _).
  assert (App.deps st ≠ App.deps (App.setView App.home (App.setSearchQuery val st)))
    as Hne.
  { unfold App.deps. simpl. rewrite Hview. congruence. }
  rewrite (rerender_changed _ _ Hne), Hcall.
  rewrite (effectCall_deps _ _ Hdeps), Hcall.
  unfold App.deps in Hdeps. injection Hdeps as -> _ ->. done.
Qed.

Lemma long_query_returns_home_witness :
  App.view (App.handle Samples.in_coding (App.SearchChange "abc")) = App.home
  ∧ App.searchQuery (App.handle Samples.in_coding (App.SearchChange "abc"))
    = "abc"
  ∧ App.effectCall (App.handle Samples.in_coding (App.SearchChange "abc"))
    = Some (App.searchPrompts "abc")
  ∧ App.inflight (App.handle Samples.in_coding (App.SearchChange "abc"))
    = App.inflight Samples.in_coding ++ [App.searchPrompts "abc"].
Proof.
  apply (long_query_returns_home Samples.in_coding "abc").
  - reflexivity.
  - simpl. lia.
Defined.

(** C9. In the home view a query of one or two characters makes no call
    and leaves [prompts] as it was; once the categories are loaded the
    page shows the list of prompts in place of the grid of categories:
    the prompts fetched before, or the empty state when there are none. *)
Theorem short_query_shows_previous_prompts (st : App.State) (val : string) :
  App.view st = App.home →
  1 ≤ String.length val ≤ 2 →
  App.loading st = false →
  App.inflight (App.handle st (App.SearchChange val)) = App.inflight st
  ∧ App.prompts (App.handle st (App.SearchChange val)) = App.prompts st
  ∧ (App.searchQuery st = "" →
     App.main (App.render st) = App.CategoryGrid (App.categories st))
  ∧ App.main (App.render (App.handle st (App.SearchChange val)))
    = App.PromptsList (Some "Результаты поиска")
        (if App.loadingPrompts st then App.Skeleton
         else match App.prompts st with
              | [] => App.NotFound true
              | _ => App.Items (App.prompts st)
              end).
Proof.
  intros Hview [Hlen1 Hlen2] Hloading.
  rewrite (handle_short_query st val Hview Hlen2).
  assert (truthy val = true) as Htruthy.
  { rewrite truthy_length. destruct (String.length val); [lia | done]. }
  split; [done|]. split; [done|]. split.
  - intros Hq. unfold App.render, App.filteredCategories. simpl.
    by rewrite Hloading, Hview, Hq.
  - unfold App.render, App.renderPromptsList. simpl.
    rewrite Hloading, Hview, Htruthy. simpl.
    by destruct (App.loadingPrompts st), (App.prompts st).
Qed.

Lemma short_query_shows_previous_prompts_witness :
  App.inflight (App.handle Samples.at_home (App.SearchChange "ab"))
  = App.inflight Samples.at_home
  ∧ App.prompts (App.handle Samples.at_home (App.SearchChange "ab"))
    = App.prompts Samples.at_home
  ∧ (App.searchQuery Samples.at_home = "" →
     App.main (App.render Samples.at_home)
     = App.CategoryGrid (App.categories Samples.at_home))
  ∧ App.main (App.render (App.handle Samples.at_home (App.SearchChange "ab")))
    = App.PromptsList (Some "Результаты поиска")
        (if App.loadingPrompts Samples.at_home then App.Skeleton
         else match App.prompts Samples.at_home with
              | [] => App.NotFound true
              | _ => App.Items (App.prompts Samples.at_home)
              end).
Proof.
  apply (short_query_shows_previous_prompts Samples.at_home "ab").
  - reflexivity.
  - simpl. lia.
  - reflexivity.
Defined.

(** ** The ordering of responses in the React front end *)

Section Ordering.

Import App.

Variable sv : Service.

Lemma settledList_ext st st' :
  inflight st' = inflight st → prompts st' = prompts st →
  settledList sv st' = settledList sv st.
Proof. unfold settledList. by intros -> ->. Qed.

Lemma settledList_snoc st st' c :
  inflight st' = inflight st ++ [c] → isListCall c = true →
  settledList sv st' = listOf sv c.
Proof.
  unfold settledList. intros -> Hc.
  rewrite List.filter_app. simpl. rewrite Hc. by rewrite last_snoc.
Qed.

(** A handler that touches neither [prompts] nor the outstanding calls
    keeps the component on course through the render that follows. *)
Lemma rerender_on_course st h :
  prompts h = prompts st → inflight h = inflight st →
  on_course sv st → on_course sv (rerender st h).
Proof.
  intros Hprompts Hinflight Hst c Hc.
  destruct (decide (deps st = deps h)) as [Heq | Hne].
  - rewrite (rerender_unchanged _ _ Heq) in *.
    rewrite (settledList_ext st h) by done.
    apply Hst. by rewrite (effectCall_deps st h).
  - destruct (rerender_fields st h) as (Hdeps & _).
    rewrite (effectCall_deps _ _ Hdeps) in Hc.
    apply settledList_snoc with h.
    + rewrite (rerender_changed _ _ Hne), Hc. done.
    + by apply effectCall_isListCall with h.
Qed.

Lemma handle_on_course st u : on_course sv st → on_course sv (handle st u).
Proof.
  intros Hst. destruct u as [cid| |promptSummary|val| |]; simpl.
  - by apply rerender_on_course.
  - intros c Hc.
    destruct (rerender_fields st (handleBack st)) as (Hdeps & _).
    rewrite (effectCall_deps _ _ Hdeps) in Hc. discriminate Hc.
  - intros c Hc. unfold settledList. simpl.
    rewrite List.filter_app. simpl. rewrite app_nil_r. by apply Hst.
  - apply rerender_on_course; [| |done];
      unfold handleSearchChange; by repeat case_match.
  - by apply rerender_on_course.
  - done.
Qed.

(** The answer to the oldest outstanding call changes neither the call
    that the component stands for nor the list it is heading to. *)
Lemma arrive_oldest st :
  effectCall (play sv st (Arrive 0)) = effectCall st
  ∧ settledList sv (play sv st (Arrive 0)) = settledList sv st.
Proof.
  unfold play, settledList. simpl. unfold settle.
  destruct (inflight st) as [|c rest] eqn:Hinflight; simpl;
    [by rewrite Hinflight|].
  destruct c as [|categoryId|query|promptId]; simpl.
  - done.
  - rewrite last_cons. by destruct (last (List.filter isListCall rest)).
  - rewrite last_cons. by destruct (last (List.filter isListCall rest)).
  - by destruct (promptOf sv promptId).
Qed.

Lemma play_on_course st a :
  oldest_first a → on_course sv st → on_course sv (play sv st a).
Proof.
  destruct a as [u|i]; simpl.
  - intros _. apply handle_on_course.
  - intros -> Hst c Hc.
    destruct (arrive_oldest st) as [Hcall Hlist].
    simpl in Hcall, Hlist. rewrite Hlist. apply Hst. by rewrite <- Hcall.
Qed.

Lemma session_on_course acts st :
  in_order acts → on_course sv st → on_course sv (foldl (play sv) st acts).
Proof.
  revert st. induction acts as [|a acts IH]; intros st Hacts Hst; [done|].
  apply Forall_cons in Hacts as [Ha Hacts]. simpl.
  apply IH; [done|]. by apply play_on_course.
Qed.

End Ordering.

(** ** The portal front end *)

Section PortalClient.

Import Client.

(** The same race in the portal front end: the panel shows the results
    of the search for [ab] under a field that reads [abc]. *)
Example client_stale_search :
  let s := run [Dom (Input "ab"); Dom Timeout; Dom (Input "abc"); Dom Timeout;
                Settle 1 (OkResults [Samples.beta_result]);
                Settle 0 (OkResults [Samples.alpha_result])] initial in
  fetched s = [GET_search "ab"; GET_search "abc"]
  ∧ inflight s = []
  ∧ searchInput_value (searchBox s) = "abc"
  ∧ searchResults_visible (searchBox s) = true
  ∧ searchResults_html (searchBox s) = ResultItems [Samples.alpha_result].
Proof. vm_compute. done. Qed.

(** A query shorter than two characters is never sent to the server. *)
Lemma handleSearchInput_short value s :
  String.length (trim value) < 2 →
  searchTimeout (state (handleSearchInput value s)) = None
  ∧ fetched (handleSearchInput value s) = fetched s.
Proof.
  intros Hlen. unfold handleSearchInput.
  destruct (String.length (trim value) =? 0) eqn:H0; [done|].
  destruct (String.length (trim value) <? 2) eqn:H2; [done|].
  apply Nat.ltb_ge in H2. lia.
Qed.

(** With the categories in the cache, a call of [loadCategories] renders
    them and asks the server nothing. *)
Lemma loadCategories_cached s cats reply :
  categories (cache s) = Some cats →
  fetched (loadCategories_await reply s) = fetched s
  ∧ cache (loadCategories_await reply s) = cache s
  ∧ inflight (loadCategories_await reply s) = inflight s
  ∧ contentContainer (page (loadCategories_await reply s))
    = CategoriesGrid cats.
Proof.
  intros Hcache.
  assert (loadCategories s
          = hideLoading (renderCategories cats (hideError (showLoading s))))
    as Hload.
  { unfold loadCategories. simpl. by rewrite Hcache. }
  unfold loadCategories_await. rewrite Hload. simpl.
  by rewrite decide_True.
Qed.

(** Without them, a call asks the server once and stores the answer. *)
Lemma loadCategories_first s cats :
  categories (cache s) = None →
  fetched (loadCategories_await (OkCategories cats) s)
  = fetched s ++ [GET_categories]
  ∧ categories (cache (loadCategories_await (OkCategories cats) s))
    = Some cats
  ∧ contentContainer (page (loadCategories_await (OkCategories cats) s))
    = CategoriesGrid cats.
Proof.
  intros Hcache.
  assert (loadCategories s
          = fetch GET_categories InLoadCategories (hideError (showLoading s)))
    as Hload.
  { unfold loadCategories. simpl. by rewrite Hcache. }
  unfold loadCategories_await. rewrite Hload. simpl.
  rewrite decide_False.
  2:{ intros Heq. apply (f_equal length) in Heq.
      rewrite length_app in Heq. simpl in Heq. lia. }
  unfold settle. simpl.
  rewrite (list_lookup_middle (inflight s) [] InLoadCategories) by done.
  done.
Qed.

Lemma loadCategories_later cats later s :
  categories (cache s) = Some cats →
  contentContainer (page s) = CategoriesGrid cats →
  let s' := foldl (λ s reply, loadCategories_await reply s) s later in
  fetched s' = fetched s
  ∧ categories (cache s') = Some cats
  ∧ contentContainer (page s') = CategoriesGrid cats.
Proof.
  revert s. induction later as [|reply later IH]; intros s Hcache Hpage; [done|].
  simpl. destruct (loadCategories_cached s cats reply Hcache)
    as (Hfetched & Hsame & _ & Hgrid).
  rewrite <- Hfetched. apply IH; [|done]. by rewrite Hsame.
Qed.

(** An event of the page leaves the panel of results as it is, and the
    searches it sends are the searches it awaits. *)
Lemma dispatch_frame s d :
  searchResults_html (searchBox (dispatch s d)) = searchResults_html (searchBox s)
  ∧ ∃ reqs ks,
      fetched (dispatch s d) = fetched s ++ reqs
      ∧ inflight (dispatch s d) = inflight s ++ ks
      ∧ omap searchRequested reqs = omap searchAwaited ks.
Proof.
  assert (∀ s' : Session,
            searchResults_html (searchBox s') = searchResults_html (searchBox s) →
            fetched s' = fetched s → inflight s' = inflight s →
            searchResults_html (searchBox s') = searchResults_html (searchBox s)
            ∧ ∃ reqs ks,
                fetched s' = fetched s ++ reqs
                ∧ inflight s' = inflight s ++ ks
                ∧ omap searchRequested reqs = omap searchAwaited ks) as Hsame.
  { intros s' Hhtml Hf Hi. split; [done|].
    exists [], []. by rewrite !app_nil_r. }
  assert (∀ (s' : Session) r k,
            searchResults_html (searchBox s') = searchResults_html (searchBox s) →
            fetched s' = fetched s ++ [r] → inflight s' = inflight s ++ [k] →
            searchRequested r = searchAwaited k →
            searchResults_html (searchBox s') = searchResults_html (searchBox s)
            ∧ ∃ reqs ks,
                fetched s' = fetched s ++ reqs
                ∧ inflight s' = inflight s ++ ks
                ∧ omap searchRequested reqs = omap searchAwaited ks) as Hone.
  { intros s' r k Hhtml Hf Hi Hrk. split; [done|].
    exists [r], [k]. simpl. by rewrite Hrk. }
  destruct d as [|value| | | | |cid cname| |pid|pid cid cname|]; simpl.
  - unfold loadCategories. simpl.
    destruct (categories (cache s)); [by apply Hsame | by eapply Hone].
  - unfold handleSearchInput. repeat case_match; by apply Hsame.
  - unfold timeout. destruct (searchTimeout (state s));
      [by eapply Hone | by apply Hsame].
  - by apply Hsame.
  - by apply Hsame.
  - by apply Hsame.
  - unfold navigateToCategory, loadCategoryPrompts. simpl.
    destruct (categoryPrompts (cache s) !! cid);
      [by apply Hsame | by eapply Hone].
  - unfold navigateToCategories, loadCategories. simpl.
    destruct (categories (cache s)); [by apply Hsame | by eapply Hone].
  - unfold openPromptModal.
    destruct (prompts (cache s) !! pid);
      [by apply Hsame | by eapply Hone].
  - unfold openPromptModal. simpl.
    destruct (prompts (cache s) !! pid);
      [by apply Hsame | by eapply Hone].
  - by apply Hsame.
Qed.

Lemma dispatch_on_course b s d : on_course b s → on_course b (dispatch s d).
Proof.
  intros Hs q. unfold lastSearch, settledPanel.
  destruct (dispatch_frame s d) as (-> & reqs & ks & -> & -> & Hsearches).
  rewrite !omap_app, !last_app, <- Hsearches.
  destruct (last (omap searchRequested reqs)) as [q'|].
  - by intros [= ->].
  - intros Hq. by apply Hs.
Qed.

(** The answer to the oldest outstanding request changes neither the
    last search sent nor the panel the page is heading to. *)
Lemma client_arrive_oldest b s :
  lastSearch (play b s (Arrive 0)) = lastSearch s
  ∧ settledPanel b (play b s (Arrive 0)) = settledPanel b s.
Proof.
  unfold lastSearch, settledPanel, play, settle.
  destruct (inflight s) as [|k rest] eqn:Hinflight; simpl;
    [by rewrite Hinflight|].
  destruct k as [|cid|pid|query]; simpl; try done.
  - by destruct (promptData b pid).
  - split; [done|]. rewrite last_cons.
    change (list_omap _ _ searchAwaited rest) with (omap searchAwaited rest).
    destruct (last (omap searchAwaited rest)); [done|].
    by destruct (resultsFor b query).
Qed.

Lemma client_play_on_course b s a :
  oldest_first a → on_course b s → on_course b (play b s a).
Proof.
  destruct a as [d|i].
  - intros _. apply dispatch_on_course.
  - intros Hi Hs q Hq. simpl in Hi. subst i.
    destruct (client_arrive_oldest b s) as [Hlast Hpanel].
    rewrite Hpanel. apply Hs. by rewrite <- Hlast.
Qed.

Lemma client_session_on_course b acts s :
  in_order acts → on_course b s → on_course b (foldl (play b) s acts).
Proof.
  revert s. induction acts as [|a acts IH]; intros s Hacts Hs; [done|].
  apply Forall_cons in Hacts as [Ha Hacts]. simpl.
  apply IH; [done|]. by apply client_play_on_course.
Qed.

End PortalClient.

(** ** The cache of the portal front end *)

(** C8. A call of [loadCategories] that the server answers leaves the
    categories in the cache, having asked the server once if the cache was
    empty and not at all otherwise; the calls made after it, awaited one
    after the other, return the cached categories and ask the server
    nothing, whatever it would answer. Two calls in a row thus make one
    request at most. *)
Theorem listCategories_served_from_cache
    (s : Client.Session) (cats : list Portal.PCategory)
    (later : list Client.Reply) :
  let s1 := Client.loadCategories_await (Client.OkCategories cats) s in
  let s2 := foldl (λ s reply, Client.loadCategories_await reply s) s1 later in
  let cached := default cats (Client.categories (Client.cache s)) in
  Client.fetched s1
  = Client.fetched s ++ match Client.categories (Client.cache s) with
                        | Some _ => []
                        | None => [Client.GET_categories]
                        end
  ∧ Client.categories (Client.cache s1) = Some cached
  ∧ Client.contentContainer (Client.page s1) = Client.CategoriesGrid cached
  ∧ Client.fetched s2 = Client.fetched s1
  ∧ Client.categories (Client.cache s2) = Some cached
  ∧ Client.contentContainer (Client.page s2) = Client.CategoriesGrid cached
  ∧ length (Client.fetched s2) ≤ length (Client.fetched s) + 1.
Proof.
  intros s1 s2 cached.
  assert (Client.fetched s1
          = Client.fetched s ++ match Client.categories (Client.cache s) with
                                | Some _ => []
                                | None => [Client.GET_categories]
                                end
          ∧ Client.categories (Client.cache s1) = Some cached
          ∧ Client.contentContainer (Client.page s1)
            = Client.CategoriesGrid cached) as (Hfetched & Hstored & Hgrid).
  { subst s1 cached.
    destruct (Client.categories (Client.cache s)) as [old|] eqn:Hcache; simpl.
    - destruct (loadCategories_cached s old (Client.OkCategories cats) Hcache)
        as (-> & -> & _ & ->).
      by rewrite app_nil_r.
    - by apply loadCategories_first. }
  destruct (loadCategories_later cached later s1 Hstored Hgrid)
    as (Hsame & Hkept & Hshown).
  repeat (split; [done|]).
  fold s2 in Hsame. rewrite Hsame, Hfetched, length_app.
  destruct (Client.categories (Client.cache s)); simpl; lia.
Qed.

Lemma listCategories_served_from_cache_witness :
  let s := Client.initial in
  let s1 := Client.loadCategories_await
              (Client.OkCategories [Samples.general]) s in
  let s2 := foldl (λ s reply, Client.loadCategories_await reply s) s1
              [Client.NetworkError] in
  let cached := default [Samples.general]
                  (Client.categories (Client.cache s)) in
  Client.fetched s1
  = Client.fetched s ++ match Client.categories (Client.cache s) with
                        | Some _ => []
                        | None => [Client.GET_categories]
                        end
  ∧ Client.categories (Client.cache s1) = Some cached
  ∧ Client.contentContainer (Client.page s1) = Client.CategoriesGrid cached
  ∧ Client.fetched s2 = Client.fetched s1
  ∧ Client.categories (Client.cache s2) = Some cached
  ∧ Client.contentContainer (Client.page s2) = Client.CategoriesGrid cached
  ∧ length (Client.fetched s2) ≤ length (Client.fetched s) + 1.
Proof.
  exact (listCategories_served_from_cache Client.initial [Samples.general]
           [Client.NetworkError]).
Defined.

(** ** The ordering of responses *)

(** Two searches answered in the reverse order: the query reads [abcd],
    the list is the answer to [abc]. *)
Example searches_answered_in_reverse :
  let st := App.session Samples.service
              [App.Arrive 0;
               App.Act (App.SearchChange "abc");
               App.Act (App.SearchChange "abcd");
               App.Arrive 1;
               App.Arrive 0] in
  App.view st = App.home
  ∧ App.searchQuery st = "abcd"
  ∧ App.inflight st = []
  ∧ App.loadingPrompts st = false
  ∧ App.prompts st = [Samples.echo "abc"].
Proof. vm_compute. done. Qed.

(** C1, as the specification states it, fails: the answer to the search
    for [abc] arrives after the answer to the search for [abcd], which
    the query has become meanwhile, and replaces it. *)
Lemma stale_search_overwrites :
  ¬ App.last_action_wins.
Proof.
  intros H.
  specialize (H Samples.service
                [App.Arrive 0;
                 App.Act (App.SearchChange "abc");
                 App.Act (App.SearchChange "abcd");
                 App.Arrive 1;
                 App.Arrive 0]
                (App.searchPrompts "abcd") eq_refl eq_refl).
  vm_compute in H. discriminate H.
Qed.

(** C1 (amended). When the answers arrive in the order in which the
    requests were made, what is on display once no request is outstanding
    is the answer to the last one that matters: in the React front end
    the list of prompts is the answer to the call that the current view
    and query stand for; in the portal front end the panel of results is
    the answer to the last search sent. *)
Theorem last_action_wins_in_order :
  (∀ (sv : App.Service) (acts : list App.Action) (c : App.Call),
     App.in_order acts →
     App.inflight (App.session sv acts) = [] →
     App.effectCall (App.session sv acts) = Some c →
     App.prompts (App.session sv acts) = App.listOf sv c)
  ∧
  (∀ (b : Client.Backend) (acts : list Client.Action) (q : string),
     Client.in_order acts →
     Client.inflight (Client.session b acts) = [] →
     Client.lastSearch (Client.session b acts) = Some q →
     Client.searchResults_html (Client.searchBox (Client.session b acts))
     = Client.resultsPanel (Client.resultsFor b q)).
Proof.
  split.
  - intros sv acts c Hacts Hidle Hcall.
    assert (App.on_course sv (App.session sv acts)) as Hcourse.
    { apply session_on_course; [done|]. intros c' Hc'. discriminate Hc'. }
    specialize (Hcourse c Hcall). unfold App.settledList in Hcourse.
    by rewrite Hidle in Hcourse.
  - intros b acts q Hacts Hidle Hlast.
    assert (Client.on_course b (Client.session b acts)) as Hcourse.
    { apply client_session_on_course; [done|]. intros q' Hq'. discriminate Hq'. }
    specialize (Hcourse q Hlast). unfold Client.settledPanel in Hcourse.
    by rewrite Hidle in Hcourse.
Qed.

Lemma last_action_wins_in_order_witness :
  App.prompts
    (App.session Samples.service
       [App.Arrive 0;
        App.Act (App.SearchChange "abc");
        App.Act (App.SearchChange "abcd");
        App.Arrive 0;
        App.Arrive 0])
  = App.listOf Samples.service (App.searchPrompts "abcd")
  ∧
  Client.searchResults_html
    (Client.searchBox
       (Client.session Samples.backend
          [Client.Act (Client.Input "ab"); Client.Act Client.Timeout;
           Client.Act (Client.Input "abc"); Client.Act Client.Timeout;
           Client.Arrive 0; Client.Arrive 0]))
  = Client.resultsPanel (Client.resultsFor Samples.backend "abc").
Proof.
  split.
  - apply (proj1 last_action_wins_in_order Samples.service
             [App.Arrive 0;
              App.Act (App.SearchChange "abc");
              App.Act (App.SearchChange "abcd");
              App.Arrive 0;
              App.Arrive 0]
             (App.searchPrompts "abcd")).
    + repeat constructor.
    + reflexivity.
    + reflexivity.
  - apply (proj2 last_action_wins_in_order Samples.backend
             [Client.Act (Client.Input "ab"); Client.Act Client.Timeout;
              Client.Act (Client.Input "abc"); Client.Act Client.Timeout;
              Client.Arrive 0; Client.Arrive 0]
             "abc").
    + repeat constructor.
    + reflexivity.
    + reflexivity.
Defined.

(** * Further properties of the servers *)

Section ServerAccess.

Import Server.



End ServerAccess.



(** X2. The search of the ESM server, for a query whose lower-cased
    form has two characters or more, answers 500 when [categories.json]
    is missing, is not JSON or holds an object in place of the array of
    categories, and it has then read that one file only: no file of a
    category is opened. *)
Theorem esm_search_fails_only_on_category_index
    (w : world Server.Doc) (q : string) :
  2 ≤ String.length (toLowerCase q) →
  (∀ cats, files w !! Server.categoriesPath
           ≠ Some (Json (Server.CategoriesDoc cats))) →
  run (Server.search (Some q)) w
  = (Some {| Server.status := 500;
             Server.body := Server.JsonError "Search failed" |},
     [ReadFile Server.categoriesPath]).
Proof.
  intros Hlen Hbad. unfold Server.search. simpl.
  rewrite truthy_length.
  destruct (String.length (toLowerCase q) =? 0) eqn:H0;
    [apply Nat.eqb_eq in H0; lia|].
  destruct (String.length (toLowerCase q) <? 2) eqn:H2;
    [apply Nat.ltb_lt in H2; lia|].
  simpl. io_unfold.
  destruct (files w !! Server.categoriesPath) as [[|[cs|ps|p]]|] eqn:Hfile;
    simpl; try done.
  by destruct (Hbad cs).
Qed.

Lemma esm_search_fails_only_on_category_index_witness :
  run (Server.search (Some "review")) Samples.esm_empty_category
  = (Some {| Server.status := 500;
             Server.body := Server.JsonError "Search failed" |},
     [ReadFile Server.categoriesPath]).
Proof.
  apply (esm_search_fails_only_on_category_index
           Samples.esm_empty_category "review").
  - simpl. lia.
  - intros cats. vm_compute. discriminate.
Defined.

Section QueryCase.

Lemma is_space_toLowerChar (c : ascii) :
  Ascii.is_space (toLowerChar c) = Ascii.is_space c.
Proof. by destruct c as [[] [] [] [] [] [] [] []]. Qed.

Lemma blank_toLowerCase (s : string) : blank (toLowerCase s) = blank s.
Proof.
  induction s as [|c s IH]; simpl; [done|].
  by rewrite is_space_toLowerChar, IH.
Qed.

Lemma trim_empty_decide (s : string) : bool_decide (trim s = "") = blank s.
Proof.
  destruct (blank s) eqn:Hs.
  - apply bool_decide_eq_true_2. by apply trim_empty.
  - apply bool_decide_eq_false_2. rewrite trim_empty. congruence.
Qed.

Lemma toLowerChar_idemp (c : ascii) : toLowerChar (toLowerChar c) = toLowerChar c.
Proof. by destruct c as [[] [] [] [] [] [] [] []]. Qed.

Lemma toLowerCase_idemp (s : string) :
  toLowerCase (toLowerCase s) = toLowerCase s.
Proof.
  induction s as [|c s IH]; simpl; [done|].
  by rewrite toLowerChar_idemp, IH.
Qed.

End QueryCase.

(** X3. Both search endpoints depend on the query through its lower-case
    form only: two queries that differ in the case of their letters get
    the same response after the same accesses to the files. *)
Theorem search_ignores_case_of_query (q q' : string) :
  toLowerCase q = toLowerCase q' →
  (∀ w : world Server.Doc,
     run (Server.search (Some q)) w = run (Server.search (Some q')) w)
  ∧ (∀ w : world Portal.Doc,
       run (Portal.search (Some q)) w = run (Portal.search (Some q')) w).
Proof.
  intros Hlower. split; intros w.
  - unfold Server.search. simpl. by rewrite Hlower.
  - unfold Portal.search.
    rewrite !truthy_length, !trim_empty_decide.
    rewrite <- (length_toLowerCase q), <- (length_toLowerCase q').
    rewrite <- (blank_toLowerCase q), <- (blank_toLowerCase q').
    by rewrite Hlower.
Qed.

Lemma search_ignores_case_of_query_witness :
  (∀ w : world Server.Doc,
     run (Server.search (Some "Code")) w = run (Server.search (Some "code")) w)
  ∧ (∀ w : world Portal.Doc,
       run (Portal.search (Some "Code")) w = run (Portal.search (Some "code")) w).
Proof.
  apply (search_ignores_case_of_query "Code" "code"). reflexivity.
Defined.

Section PortalScan.

Import Portal.

Lemma scanPrompts_log (w : world Doc) sq m names ps acc log :
  holds w (jsonFiles names) ps →
  snd (scanPrompts sq m names acc w log)
  = log ++ map (λ file, ReadFile (promptFilePath file)) (jsonFiles names).
Proof.
  unfold holds, jsonFiles.
  revert ps acc log. induction names as [|file names IH]; intros ps acc log.
  - simpl. by rewrite app_nil_r.
  - simpl. destruct (endsWith file ".json") eqn:Hjson; [|by apply IH].
    intros Hps. apply Forall2_cons_inv_l in Hps as (p & ps' & Hp & Hps & ->).
    io_unfold. rewrite Hp. simpl.
    destruct (matchesQuery sq p); rewrite (IH ps') by done;
      by rewrite <- app_assoc.
Qed.

(** A file of the listing that ends in [.json] and does not hold a
    prompt makes the scan throw, wherever it stands in the listing. *)
Lemma scanPrompts_throws (w : world Doc) sq m names file acc log :
  file ∈ names →
  endsWith file ".json" = true →
  (∀ p, files w !! promptFilePath file ≠ Some (Json (PromptDoc p))) →
  fst (scanPrompts sq m names acc w log) = None.
Proof.
  intros Hin Hjson Hbad. revert acc log.
  induction names as [|name names IH]; intros acc log.
  - by apply elem_of_nil in Hin.
  - simpl. destruct (endsWith name ".json") eqn:Hname.
    + io_unfold.
      destruct (files w !! promptFilePath name) as [[|[cs|ss|p]]|] eqn:Hfile;
        simpl; try done.
      assert (file ∈ names) as Hrest.
      { apply elem_of_cons in Hin as [-> | Hin]; [|done].
        by destruct (Hbad p). }
      destruct (matchesQuery sq p); by apply IH.
    + apply IH. apply elem_of_cons in Hin as [-> | Hin]; [congruence | done].
Qed.

End PortalScan.

(** X4. On the portal server one file of [data/prompts] that ends in
    [.json] and cannot be read as a prompt fails the whole search with
    500, whatever the other files hold: the scan has no [try] of its
    own, unlike the loop of the ESM server. *)
Theorem portal_search_fails_on_one_bad_file
    (w : world Portal.Doc) (q : string) (cats : list Portal.PCategory)
    (names : list string) (file : string) :
  blank q = false →
  files w !! Portal.categoriesPath = Some (Json (Portal.CategoriesDoc cats)) →
  dirs w !! Portal.promptsDir = Some names →
  file ∈ names →
  endsWith file ".json" = true →
  (∀ p, files w !! Portal.promptFilePath file
        ≠ Some (Json (Portal.PromptDoc p))) →
  fst (run (Portal.search (Some q)) w)
  = Some {| Portal.status := 500;
            Portal.body := Portal.JsonError "Ошибка поиска" |}.
Proof.
  intros Hq Hcats Hdir Hin Hjson Hbad. unfold Portal.search.
  rewrite (blank_truthy q Hq), trim_empty_decide, Hq. simpl.
  io_unfold. rewrite Hcats. simpl. rewrite Hdir.
  match goal with
  | |- context [Portal.scanPrompts ?sq ?m ?l ?acc w ?log] =>
      pose proof (scanPrompts_throws w sq m l file acc log Hin Hjson Hbad)
        as Hthrows;
      destruct (Portal.scanPrompts sq m l acc w log) as [[r|] log']
  end; [discriminate Hthrows | done].
Qed.

Lemma portal_search_fails_on_one_bad_file_witness :
  fst (run (Portal.search (Some "alpha")) Samples.portal_broken_world)
  = Some {| Portal.status := 500;
            Portal.body := Portal.JsonError "Ошибка поиска" |}.
Proof.
  apply (portal_search_fails_on_one_bad_file Samples.portal_broken_world
           "alpha" [Samples.general]
           ["alpha.json"; "notes.txt"; "broken.json"] "broken.json").
  - reflexivity.
  - reflexivity.
  - reflexivity.
  - set_solver.
  - reflexivity.
  - intros p. vm_compute. discriminate.
Defined.

(** X5. The search of the portal server, once past its guard and when
    every [.json] file of [data/prompts] holds a prompt, reads
    [categories.json], lists the directory, and reads the [.json] files
    once each in the order of the listing; a file with another extension
    is never opened. *)
Theorem portal_search_reads_json_files_only
    (w : world Portal.Doc) (q : string) (cats : list Portal.PCategory)
    (names : list string) (ps : list Portal.PPrompt) :
  blank q = false →
  files w !! Portal.categoriesPath = Some (Json (Portal.CategoriesDoc cats)) →
  dirs w !! Portal.promptsDir = Some names →
  Portal.holds w (Portal.jsonFiles names) ps →
  snd (run (Portal.search (Some q)) w)
  = [ReadFile Portal.categoriesPath; ReadDir Portal.promptsDir]
    ++ map (λ file, ReadFile (Portal.promptFilePath file))
         (Portal.jsonFiles names).
Proof.
  intros Hq Hcats Hdir Hps. unfold Portal.search.
  rewrite (blank_truthy q Hq), trim_empty_decide, Hq. simpl.
  io_unfold. rewrite Hcats. simpl. rewrite Hdir.
  match goal with
  | |- context [Portal.scanPrompts ?sq ?m ?l ?acc w ?log] =>
      pose proof (scanPrompts_log w sq m l ps acc log Hps) as Hlog;
      destruct (scanPrompts_eval w sq m l ps acc log Hps) as [log' Heval];
      rewrite Heval in Hlog |- *
  end.
  simpl in Hlog |- *. by rewrite Hlog.
Qed.

Lemma portal_search_reads_json_files_only_witness :
  snd (run (Portal.search (Some "alpha")) Samples.portal_mixed_world)
  = [ReadFile Portal.categoriesPath; ReadDir Portal.promptsDir]
    ++ map (λ file, ReadFile (Portal.promptFilePath file))
         (Portal.jsonFiles ["notes.txt"; "alpha.json"]).
Proof.
  apply (portal_search_reads_json_files_only Samples.portal_mixed_world
           "alpha" [Samples.general] ["notes.txt"; "alpha.json"]
           [Samples.alpha]).
  - reflexivity.
  - reflexivity.
  - reflexivity.
  - repeat constructor.
Defined.

(** X6. On both servers the detail of a prompt whose file exists and
    parses is a success that carries the file, and the detail of a prompt
    that has no file is the response 404. *)
Theorem getPromptDetail_found_or_404 (promptId : string) :
  (∀ (w : world Server.Doc) (d : Server.Doc),
     files w !! Server.promptPath promptId = Some (Json d) →
     run (Server.getPrompt promptId) w
     = (Some {| Server.status := 200; Server.body := Server.JsonDoc d |},
        [ReadFile (Server.promptPath promptId)]))
  ∧ (∀ (w : world Server.Doc),
       files w !! Server.promptPath promptId = None →
       run (Server.getPrompt promptId) w
       = (Some {| Server.status := 404;
                  Server.body := Server.JsonError "Prompt not found" |},
          [ReadFile (Server.promptPath promptId)]))
  ∧ (∀ (w : world Portal.Doc) (d : Portal.Doc),
       files w !! Portal.promptPath promptId = Some (Json d) →
       run (Portal.getPrompt promptId) w
       = (Some {| Portal.status := 200; Portal.body := Portal.JsonDoc d |},
          [ExistsSync (Portal.promptPath promptId);
           ReadFile (Portal.promptPath promptId)]))
  ∧ (∀ (w : world Portal.Doc),
       files w !! Portal.promptPath promptId = None →
       run (Portal.getPrompt promptId) w
       = (Some {| Portal.status := 404;
                  Portal.body := Portal.JsonError "Промт не найден" |},
          [ExistsSync (Portal.promptPath promptId)])).
Proof.
  split; [|split; [|split]].
  - intros w d Hfile. unfold Server.getPrompt. io_unfold. by rewrite Hfile.
  - intros w Hfile. unfold Server.getPrompt. io_unfold. by rewrite Hfile.
  - intros w d Hfile. unfold Portal.getPrompt. io_unfold.
    rewrite Hfile. rewrite bool_decide_eq_true_2 by eauto. simpl.
    by rewrite Hfile.
  - intros w Hfile. unfold Portal.getPrompt. io_unfold.
    rewrite Hfile. rewrite bool_decide_eq_false_2; [done|].
    by intros [x Hx].
Qed.

Lemma getPromptDetail_found_or_404_witness :
  run (Server.getPrompt "p2") Samples.esm_prompts
  = (Some {| Server.status := 200;
             Server.body := Server.JsonDoc (Server.PromptDoc Samples.review_full) |},
     [ReadFile (Server.promptPath "p2")])
  ∧ run (Server.getPrompt "p9") Samples.esm_prompts
    = (Some {| Server.status := 404;
               Server.body := Server.JsonError "Prompt not found" |},
       [ReadFile (Server.promptPath "p9")])
  ∧ run (Portal.getPrompt "alpha") Samples.portal_prompts
    = (Some {| Portal.status := 200;
               Portal.body := Portal.JsonDoc (Portal.PromptDoc Samples.alpha) |},
       [ExistsSync (Portal.promptPath "alpha");
        ReadFile (Portal.promptPath "alpha")])
  ∧ run (Portal.getPrompt "omega") Samples.portal_prompts
    = (Some {| Portal.status := 404;
               Portal.body := Portal.JsonError "Промт не найден" |},
       [ExistsSync (Portal.promptPath "omega")]).
Proof.
  split; [|split; [|split]].
  - apply (proj1 (getPromptDetail_found_or_404 "p2")). reflexivity.
  - apply (proj1 (proj2 (getPromptDetail_found_or_404 "p9"))). reflexivity.
  - apply (proj1 (proj2 (proj2 (getPromptDetail_found_or_404 "alpha")))).
    reflexivity.
  - apply (proj2 (proj2 (proj2 (getPromptDetail_found_or_404 "omega")))).
    reflexivity.
Defined.

(** X7. A file that exists and is not JSON: the ESM server answers 404
    for a category and for a prompt, as if the file were missing; the
    portal server answers 500 for both, keeping 404 for the missing
    file. Both answer 500 when it is [categories.json]. *)
Theorem unparseable_file_status (ident : string) :
  (∀ w : world Server.Doc,
     files w !! Server.categoryPath ident = Some Garbled →
     Server.status <$> fst (run (Server.getCategory ident) w) = Some 404)
  ∧ (∀ w : world Server.Doc,
       files w !! Server.promptPath ident = Some Garbled →
       Server.status <$> fst (run (Server.getPrompt ident) w) = Some 404)
  ∧ (∀ w : world Portal.Doc,
       files w !! Portal.categoryPath ident = Some Garbled →
       Portal.status <$> fst (run (Portal.getCategory ident) w) = Some 500)
  ∧ (∀ w : world Portal.Doc,
       files w !! Portal.promptPath ident = Some Garbled →
       Portal.status <$> fst (run (Portal.getPrompt ident) w) = Some 500)
  ∧ (∀ w : world Server.Doc,
       files w !! Server.categoriesPath = Some Garbled →
       Server.status <$> fst (run Server.getCategories w) = Some 500)
  ∧ (∀ w : world Portal.Doc,
       files w !! Portal.categoriesPath = Some Garbled →
       Portal.status <$> fst (run Portal.getCategories w) = Some 500).
Proof.
  split; [|split; [|split; [|split; [|split]]]]; intros w Hfile.
  - unfold Server.getCategory. io_unfold. by rewrite Hfile.
  - unfold Server.getPrompt. io_unfold. by rewrite Hfile.
  - unfold Portal.getCategory. io_unfold. rewrite Hfile.
    rewrite bool_decide_eq_true_2 by eauto. simpl. by rewrite Hfile.
  - unfold Portal.getPrompt. io_unfold. rewrite Hfile.
    rewrite bool_decide_eq_true_2 by eauto. simpl. by rewrite Hfile.
  - unfold Server.getCategories. io_unfold. by rewrite Hfile.
  - unfold Portal.getCategories. io_unfold. by rewrite Hfile.
Qed.

Lemma unparseable_file_status_witness :
  Server.status <$> fst (run (Server.getCategory "bad") Samples.esm_prompts)
  = Some 404
  ∧ Server.status <$> fst (run (Server.getPrompt "bad") Samples.esm_prompts)
    = Some 404
  ∧ Portal.status <$> fst (run (Portal.getCategory "bad") Samples.portal_prompts)
    = Some 500
  ∧ Portal.status <$> fst (run (Portal.getPrompt "bad") Samples.portal_prompts)
    = Some 500
  ∧ Server.status <$> fst (run Server.getCategories Samples.esm_prompts)
    = Some 500
  ∧ Portal.status <$> fst (run Portal.getCategories Samples.portal_prompts)
    = Some 500.
Proof.
  split; [|split; [|split; [|split; [|split]]]].
  - apply (proj1 (unparseable_file_status "bad")). reflexivity.
  - apply (proj1 (proj2 (unparseable_file_status "bad"))). reflexivity.
  - apply (proj1 (proj2 (proj2 (unparseable_file_status "bad")))). reflexivity.
  - apply (proj1 (proj2 (proj2 (proj2 (unparseable_file_status "bad"))))).
    reflexivity.
  - apply (proj1 (proj2 (proj2 (proj2 (proj2 (unparseable_file_status "bad")))))).
    reflexivity.
  - apply (proj2 (proj2 (proj2 (proj2 (proj2 (unparseable_file_status "bad")))))).
    reflexivity.
Defined.

Section CategoryNames.

Import Portal.

Lemma categoriesMap_lookup (cats : list PCategory) (m : gmap string string)
    (cid : string) :
  foldl (λ categoriesMap cat, <[pc_id cat := pc_name cat]> categoriesMap)
        m cats !! cid
  = match last (List.filter (λ c, bool_decide (pc_id c = cid)) cats) with
    | Some c => Some (pc_name c)
    | None => m !! cid
    end.
Proof.
  revert m. induction cats as [|c cats IH]; intros m; simpl; [done|].
  rewrite IH. case_bool_decide as Hid.
  - rewrite last_cons.
    destruct (last (List.filter (λ c0, bool_decide (pc_id c0 = cid)) cats));
      [done|].
    by rewrite Hid, lookup_insert_eq.
  - destruct (last (List.filter (λ c0, bool_decide (pc_id c0 = cid)) cats));
      [done|].
    by rewrite lookup_insert_ne.
Qed.

End CategoryNames.

(** X8. The category name that the portal search attaches to a result is
    the name of the last category of [categories.json] that carries the
    identifier of the prompt, and the placeholder when there is no such
    category or when its name is empty; it is never the empty string. *)
Theorem search_result_category_name
    (cats : list Portal.PCategory) (p : Portal.PPrompt) :
  Portal.sr_categoryName (Portal.toResult (Portal.buildCategoriesMap cats) p)
  = match last (List.filter
                  (λ c, bool_decide (Portal.pc_id c = Portal.pp_categoryId p))
                  cats) with
    | Some c => if truthy (Portal.pc_name c) then Portal.pc_name c
                else "Неизвестная категория"
    | None => "Неизвестная категория"
    end
  ∧ Portal.sr_categoryName (Portal.toResult (Portal.buildCategoriesMap cats) p)
    ≠ "".
Proof.
  assert (Portal.categoryNameOf (Portal.buildCategoriesMap cats)
            (Portal.pp_categoryId p)
          = match last (List.filter
                          (λ c, bool_decide (Portal.pc_id c = Portal.pp_categoryId p))
                          cats) with
            | Some c => if truthy (Portal.pc_name c) then Portal.pc_name c
                        else "Неизвестная категория"
            | None => "Неизвестная категория"
            end) as Hname.
  { unfold Portal.categoryNameOf, Portal.buildCategoriesMap.
    rewrite categoriesMap_lookup.
    by destruct (last _). }
  split; [exact Hname|]. simpl. rewrite Hname.
  destruct (last _) as [c|]; [|done].
  destruct (truthy (Portal.pc_name c)) eqn:Htruthy; [|done].
  unfold truthy in Htruthy. by case_bool_decide.
Qed.

(** A duplicate identifier takes the later name; an empty name and an
    unknown identifier take the placeholder. *)
Example search_result_category_name_samples :
  Portal.sr_categoryName
    (Portal.toResult
       (Portal.buildCategoriesMap
          [Samples.general; Samples.nameless; Samples.general_again])
       Samples.alpha)
  = "Everything"
  ∧ Portal.categoryNameOf
      (Portal.buildCategoriesMap [Samples.general; Samples.nameless]) "misc"
    = "Неизвестная категория"
  ∧ Portal.categoryNameOf
      (Portal.buildCategoriesMap [Samples.general; Samples.nameless]) "other"
    = "Неизвестная категория".
Proof. vm_compute. done. Qed.

(** * Further properties of the React front end *)

Section ReactNavigation.

Import App.

Lemma handle_Back st : handle st Back = handleBack st.
Proof.
  simpl. unfold rerender. case_decide; [done|].
  unfold effect, effectCall. done.
Qed.

Lemma elem_of_delete_other {A} (l : list A) (i : nat) (x y : A) :
  x ∈ l → l !! i = Some y → x ≠ y → x ∈ delete i l.
Proof.
  revert i. induction l as [|z l IH]; intros i Hin Hi Hne.
  - by apply elem_of_nil in Hin.
  - destruct i as [|i]; simpl in *.
    + injection Hi as ->. apply elem_of_cons in Hin as [-> | Hin]; done.
    + apply elem_of_cons in Hin as [-> | Hin].
      * apply list_elem_of_here.
      * apply list_elem_of_further. by apply IH.
Qed.

End ReactNavigation.

(** X9. Going back, from any state: the view is home, no category is
    active, the query and the list of prompts are empty, no call is
    made, and once the categories are loaded the page shows the grid of
    all of them. *)
Theorem going_back_resets (st : App.State) :
  let st' := App.handle st App.Back in
  App.view st' = App.home
  ∧ App.activeCategoryId st' = None
  ∧ App.searchQuery st' = ""
  ∧ App.prompts st' = []
  ∧ App.inflight st' = App.inflight st
  ∧ App.categories st' = App.categories st
  ∧ (App.loading st = false →
     App.main (App.render st') = App.CategoryGrid (App.categories st)).
Proof.
  intros st'. subst st'. rewrite handle_Back.
  repeat (split; [done|]).
  intros Hloading. unfold App.render. simpl. by rewrite Hloading.
Qed.

(** X10. Selecting a category, from any state: the view is that of the
    category, the query is cleared, the list of prompts is left as it
    was, and the prompts of the category are asked for, unless the
    component was already in that very view or the identifier is empty,
    in which cases no call is made. *)
Theorem selecting_category_fetches_its_prompts (st : App.State) (cid : string) :
  let st' := App.handle st (App.CategoryClick cid) in
  App.view st' = App.category
  ∧ App.activeCategoryId st' = Some cid
  ∧ App.searchQuery st' = ""
  ∧ App.prompts st' = App.prompts st
  ∧ App.inflight st'
    = App.inflight st
      ++ (if decide (App.deps st = (App.category, Some cid, "")) then []
          else if truthy cid then [App.getPromptsByCategoryId cid] else [])
  ∧ (App.deps st ≠ (App.category, Some cid, "") → truthy cid = true →
     App.loadingPrompts st' = true).
Proof.
  intros st'. subst st'. simpl.
  set (h := App.handleCategoryClick cid st).
  assert (App.deps h = (App.category, Some cid, "")) as Hdeps by done.
  assert (App.effectCall h
          = if truthy cid then Some (App.getPromptsByCategoryId cid) else None)
    as Hcall by done.
  destruct (rerender_fields st h) as (Hd & Hp & _).
  unfold App.deps in Hd. injection Hd as Hv Ha Hq.
  split; [done|]. split; [done|]. split; [done|]. split; [done|].
  unfold App.rerender. rewrite Hdeps.
  destruct (decide (App.deps st = (App.category, Some cid, ""))) as [Heq|Hne].
  - split; [by rewrite app_nil_r | done].
  - unfold App.effect. rewrite Hcall.
    destruct (truthy cid); simpl; [done|].
    split; [by rewrite app_nil_r | done].
Qed.

(** From the home view, the prompts of [coding] are asked for. *)
Example selecting_coding :
  let st' := App.handle Samples.at_home (App.CategoryClick "coding") in
  App.inflight st' = [App.getPromptsByCategoryId "coding"]
  ∧ App.main (App.render st')
    = App.PromptsList (Some "Coding") App.Skeleton.
Proof. vm_compute. done. Qed.

(** X11. The grid of categories is drawn only in the home view with an
    empty query, and then it holds every loaded category: the filter of
    the categories by name never removes one from what is drawn. *)
Theorem category_grid_is_never_filtered
    (st : App.State) (cats : list Category) :
  App.main (App.render st) = App.CategoryGrid cats →
  cats = App.categories st
  ∧ App.view st = App.home
  ∧ App.searchQuery st = ""
  ∧ App.loading st = false.
Proof.
  unfold App.render, App.renderPromptsList, App.filteredCategories. simpl.
  destruct (App.loading st); [done|].
  destruct (App.view st); simpl; [|done].
  unfold truthy. case_bool_decide as Hq; simpl; [|done].
  intros [= <-]. done.
Qed.

Lemma category_grid_is_never_filtered_witness :
  [Samples.marketing; Samples.coding] = App.categories Samples.at_home
  ∧ App.view Samples.at_home = App.home
  ∧ App.searchQuery Samples.at_home = ""
  ∧ App.loading Samples.at_home = false.
Proof.
  apply (category_grid_is_never_filtered Samples.at_home
           [Samples.marketing; Samples.coding]).
  reflexivity.
Defined.

(** X12. [filteredCategories] keeps the order of the categories; with an
    empty query it is all of them, and otherwise a category is kept if
    and only if the query occurs in its name, case-insensitively. *)
Theorem filteredCategories_by_name (st : App.State) :
  sublist (App.filteredCategories st) (App.categories st)
  ∧ (App.searchQuery st = "" →
     App.filteredCategories st = App.categories st)
  ∧ (App.searchQuery st ≠ "" →
     ∀ c, c ∈ App.filteredCategories st ↔
          c ∈ App.categories st
          ∧ ci_contains (App.searchQuery st) (cat_name c)).
Proof.
  unfold App.filteredCategories, truthy.
  case_bool_decide as Hq; simpl.
  - split; [done|]. split; [done|]. by intros [].
  - split; [apply sublist_filter_bool|]. split; [done|].
    intros _ c. rewrite !list_elem_of_In, filter_In, includes_spec. done.
Qed.

(** The query [COD] keeps [Coding] and drops [Marketing]. *)
Example filteredCategories_sample :
  App.filteredCategories (App.setSearchQuery "COD" Samples.at_home)
  = [Samples.coding].
Proof. vm_compute. done. Qed.

Lemma selecting_category_fetches_its_prompts_witness :
  App.loadingPrompts (App.handle Samples.at_home (App.CategoryClick "coding"))
  = true.
Proof.
  apply (selecting_category_fetches_its_prompts Samples.at_home "coding").
  - discriminate.
  - reflexivity.
Defined.

Lemma filteredCategories_by_name_witness :
  Samples.coding
    ∈ App.filteredCategories (App.setSearchQuery "COD" Samples.at_home) ↔
  Samples.coding ∈ App.categories (App.setSearchQuery "COD" Samples.at_home)
  ∧ ci_contains "COD" (cat_name Samples.coding).
Proof.
  apply (proj2 (proj2 (filteredCategories_by_name
                         (App.setSearchQuery "COD" Samples.at_home)))).
  discriminate.
Defined.

Section ReactInvariants.

Import App.

Lemma rerender_busy st h :
  loadingPrompts h = loadingPrompts st → loading h = loading st →
  inflight h = inflight st →
  busy_with_reason st → busy_with_reason (rerender st h).
Proof.
  intros Hlp Hl Hi [Hst1 Hst2]. unfold rerender, busy_with_reason.
  case_decide.
  - by rewrite Hlp, Hl, Hi.
  - unfold effect. destruct (effectCall h) as [c|] eqn:Hc; simpl.
    + split.
      * intros _. exists c. split; [set_solver|].
        by apply effectCall_isListCall with h.
      * rewrite Hl, Hi. intros Hloading. specialize (Hst2 Hloading).
        set_solver.
    + by rewrite Hlp, Hl, Hi.
Qed.

(** A call that settles takes its own indicator down and leaves the
    calls behind the other indicators outstanding. *)
Lemma busy_after_settle st st' i c :
  inflight st !! i = Some c →
  inflight st' = delete i (inflight st) →
  (loadingPrompts st' = true → loadingPrompts st = true ∧ isListCall c = false) →
  (loading st' = true → loading st = true ∧ c ≠ getCategories) →
  busy_with_reason st → busy_with_reason st'.
Proof.
  intros Hi Hdel Hlp Hl [Hst1 Hst2]. split.
  - intros Hbusy. destruct (Hlp Hbusy) as [Hwas Hc].
    destruct (Hst1 Hwas) as (c' & Hin & Hlist).
    exists c'. split; [|done]. rewrite Hdel.
    apply elem_of_delete_other with c; [done | done | congruence].
  - intros Hbusy. destruct (Hl Hbusy) as [Hwas Hc].
    rewrite Hdel. apply elem_of_delete_other with c; [by apply Hst2 | done | done].
Qed.

Lemma step_busy st e : busy_with_reason st → busy_with_reason (step st e).
Proof.
  intros Hst. destruct e as [u|i r]; simpl.
  - destruct u as [cid| |promptSummary|val| |]; simpl.
    + by apply rerender_busy.
    + by apply rerender_busy.
    + destruct Hst as [Hst1 Hst2]. split; simpl.
      * intros Hl. destruct (Hst1 Hl) as (c & Hc & Hlist).
        exists c. split; [apply elem_of_app; by left | done].
      * intros Hl. apply elem_of_app. left. by apply Hst2.
    + apply rerender_busy; [| | |done];
        unfold handleSearchChange; by repeat case_match.
    + by apply rerender_busy.
    + done.
  - unfold settle. destruct (inflight st !! i) as [c|] eqn:Hi; [|done].
    destruct c, r as [cats|data|[fp|]|]; simpl; try done;
      apply (busy_after_settle st _ i _ Hi); simpl; try done;
      try (intros Hbusy; by split).
Qed.

Lemma run_busy evs st : busy_with_reason st → busy_with_reason (run evs st).
Proof.
  revert st. induction evs as [|e evs IH]; intros st Hst; [done|].
  simpl. apply IH. by apply step_busy.
Qed.

End ReactInvariants.

(** X13. In every run of the component, a skeleton in the list of
    prompts has a call for prompts or a search outstanding behind it,
    and the spinner of the first load has the call for the categories
    outstanding behind it: once the calls have settled, by an answer or
    by a rejection, no loading indicator is left on the page. *)
Theorem loading_indicators_have_a_call (evs : list App.Event) :
  let st := App.run evs App.initial in
  (App.loadingPrompts st = true →
   ∃ c, c ∈ App.inflight st ∧ App.isListCall c = true)
  ∧ (App.loading st = true → App.getCategories ∈ App.inflight st)
  ∧ (App.inflight st = [] →
     App.loading st = false ∧ App.loadingPrompts st = false).
Proof.
  intros st.
  assert (App.busy_with_reason st) as [Hst1 Hst2].
  { apply run_busy. split; simpl; [done | set_solver]. }
  split; [done|]. split; [done|].
  intros Hidle. rewrite Hidle in Hst1, Hst2. split.
  - destruct (App.loading st); [|done]. specialize (Hst2 eq_refl). set_solver.
  - destruct (App.loadingPrompts st); [|done].
    destruct (Hst1 eq_refl) as (c & Hc & _). set_solver.
Qed.

(** A search that is rejected takes the skeleton down. *)
Lemma loading_indicators_have_a_call_witness :
  let st := App.run [App.Settle 0 App.Rejected;
                     App.User (App.SearchChange "abc");
                     App.Settle 0 App.Rejected] App.initial in
  App.loading st = false ∧ App.loadingPrompts st = false.
Proof.
  apply (loading_indicators_have_a_call
           [App.Settle 0 App.Rejected;
            App.User (App.SearchChange "abc");
            App.Settle 0 App.Rejected]).
  reflexivity.
Defined.

Section ReactOverlay.

Import App.

Lemma step_keeps_overlay_closed st e :
  isPromptClick e = false → isModalOpen st = false →
  isModalOpen (step st e) = false.
Proof.
  intros He Hclosed. destruct e as [u|i r]; simpl.
  - destruct u as [cid| |promptSummary|val| |]; simpl; try done;
      match goal with
      | |- context [rerender ?a ?b] =>
          destruct (rerender_fields a b) as (_ & _ & _ & ->)
      end; try done.
    unfold handleSearchChange. by repeat case_match.
  - unfold settle. destruct (inflight st !! i) as [c|]; [|done].
    by destruct c, r as [cats|data|[fp|]|].
Qed.

End ReactOverlay.

(** X14. The overlay is opened by a click on a prompt and by nothing
    else: through any sequence of other events, answers to outstanding
    calls included, a closed overlay stays closed. In particular the
    detail of a prompt that arrives after the overlay was closed does
    not bring it back. *)
Theorem overlay_opens_only_on_click (evs : list App.Event) (st : App.State) :
  Forall (λ e, App.isPromptClick e = false) evs →
  App.isModalOpen st = false →
  App.isModalOpen (App.run evs st) = false.
Proof.
  revert st. induction evs as [|e evs IH]; intros st Hevs Hclosed; [done|].
  apply Forall_cons in Hevs as [He Hevs]. simpl.
  apply IH; [done|]. by apply step_keeps_overlay_closed.
Qed.

Lemma overlay_opens_only_on_click_witness :
  App.isModalOpen
    (App.run [App.Settle 0 (App.FullPrompt (Some Samples.review_full))]
       (App.run [App.User (App.PromptClick Samples.review);
                 App.User App.CloseModal] Samples.at_home))
  = false.
Proof.
  apply (overlay_opens_only_on_click
           [App.Settle 0 (App.FullPrompt (Some Samples.review_full))]).
  - repeat constructor.
  - reflexivity.
Defined.

(** * Further properties of the portal front end *)

Section ClientSearchField.

Import Client.

Lemma handleSearchInput_fields value s :
  searchTimeout (state (handleSearchInput value s))
  = (if 2 <=? String.length (trim value) then Some (trim value) else None)
  ∧ fetched (handleSearchInput value s) = fetched s
  ∧ inflight (handleSearchInput value s) = inflight s
  ∧ searchInput_value (searchBox (handleSearchInput value s)) = value
  ∧ searchClear_visible (searchBox (handleSearchInput value s))
    = (0 <? String.length (trim value)).
Proof.
  unfold handleSearchInput.
  destruct (String.length (trim value)) as [|[|n]]; done.
Qed.

Lemma typing_sends_nothing values s :
  fetched (run (typing values) s) = fetched s
  ∧ inflight (run (typing values) s) = inflight s.
Proof.
  revert s. induction values as [|value values IH]; intros s; [done|].
  simpl. destruct (IH (handleSearchInput value s)) as [-> ->].
  by destruct (handleSearchInput_fields value s) as (_ & -> & -> & _).
Qed.

End ClientSearchField.

(** X15. The debounce of the search field: however many times the field
    changes before the timer fires, one search at most is sent, for the
    trimmed content of the field at the last change, and none if that is
    shorter than two characters. *)
Theorem debounce_sends_last_query_only
    (s : Client.Session) (values : list string) (value : string) :
  let s' := Client.run (Client.typing (values ++ [value])
                        ++ [Client.Dom Client.Timeout]) s in
  Client.fetched s'
  = Client.fetched s
    ++ (if 2 <=? String.length (trim value)
        then [Client.GET_search (trim value)] else [])
  ∧ Client.searchTimeout (Client.state s') = None
  ∧ Client.searchInput_value (Client.searchBox s') = value.
Proof.
  intros s'. subst s'. unfold Client.run, Client.typing.
  rewrite map_app, !foldl_app. cbn [map foldl Client.step Client.dispatch].
  fold (Client.typing values). fold (Client.run (Client.typing values) s).
  destruct (typing_sends_nothing values s) as [Hf Hi].
  set (s1 := Client.run (Client.typing values) s) in *.
  destruct (handleSearchInput_fields value s1) as (Ht & Hf1 & Hi1 & Hv & _).
  unfold Client.timeout. rewrite Ht.
  destruct (2 <=? String.length (trim value)).
  - cbn. by rewrite Hf1, Hf, Hv.
  - by rewrite Hf1, Hf, Ht, Hv, app_nil_r.
Qed.

(** Four keystrokes, one request. *)
Example debounce_sample :
  Client.fetched
    (Client.run (Client.typing ["c"; "co"; "cod"; " code "]
                 ++ [Client.Dom Client.Timeout]) Client.initial)
  = [Client.GET_search "code"].
Proof. vm_compute. done. Qed.

Section ClientCaches.

Import Client.

Lemma newest_awaiting (l : list Awaiting) (k : Awaiting) :
  (l ++ [k]) !! length l = Some k.
Proof. by apply list_lookup_middle. Qed.

Lemma delete_newest (l : list Awaiting) (k : Awaiting) :
  delete (length l) (l ++ [k]) = l.
Proof.
  induction l as [|x l IH]; simpl; [done|]. by rewrite IH.
Qed.

End ClientCaches.

(** X16. The prompts of a category whose identifier names no property
    inherited from [Object.prototype] are fetched once: the first visit
    sends the request and stores the answer under the identifier of the
    category, an empty list included, leaving the other entries alone;
    a later visit draws the stored prompts and sends nothing. *)
Theorem category_prompts_fetched_once
    (s : Client.Session) (cid cname cname' : string)
    (ps : list Portal.PSummary) :
  Client.own_key cid →
  Client.categoryPrompts (Client.cache s) !! cid = None →
  let s1 := Client.settle (length (Client.inflight s)) (Client.OkCategory ps)
              (Client.navigateToCategory cid cname s) in
  let s2 := Client.navigateToCategory cid cname' s1 in
  Client.fetched s1 = Client.fetched s ++ [Client.GET_category cid]
  ∧ Client.inflight s1 = Client.inflight s
  ∧ Client.categoryPrompts (Client.cache s1)
    = <[cid := ps]> (Client.categoryPrompts (Client.cache s))
  ∧ Client.contentContainer (Client.page s1) = Client.PromptCards ps
  ∧ Client.loading_visible (Client.page s1) = false
  ∧ Client.fetched s2 = Client.fetched s1
  ∧ Client.inflight s2 = Client.inflight s1
  ∧ Client.contentContainer (Client.page s2) = Client.PromptCards ps
  ∧ Client.currentCategoryName (Client.state s2) = Some cname'.
Proof.
  intros _ Hmiss s1 s2.
  assert (Client.navigateToCategory cid cname s
          = Client.fetch (Client.GET_category cid)
              (Client.InLoadCategoryPrompts cid)
              (Client.hideError
                 (Client.showLoading
                    (Client.set_currentCategory (Some cid) (Some cname) s))))
    as Hnav.
  { unfold Client.navigateToCategory, Client.loadCategoryPrompts. simpl.
    by rewrite Hmiss. }
  assert (s1 = Client.hideLoading
                 (Client.renderPrompts ps
                    (Client.with_cache
                       (λ c, {| Client.categories := Client.categories c;
                                Client.categoryPrompts :=
                                  <[cid := ps]> (Client.categoryPrompts c);
                                Client.prompts := Client.prompts c |})
                       (Client.set_inflight (Client.inflight s)
                          (Client.navigateToCategory cid cname s))))) as Hs1.
  { subst s1. rewrite Hnav. unfold Client.settle. simpl.
    by rewrite newest_awaiting, delete_newest. }
  rewrite Hnav in Hs1. clearbody s1. subst s1. subst s2.
  repeat (split; [done|]).
  unfold Client.navigateToCategory, Client.loadCategoryPrompts. simpl.
  by rewrite lookup_insert_eq.
Qed.

Lemma category_prompts_fetched_once_witness :
  let s := Client.initial in
  let s1 := Client.settle (length (Client.inflight s)) (Client.OkCategory [])
              (Client.navigateToCategory "general" "General" s) in
  let s2 := Client.navigateToCategory "general" "Everything" s1 in
  Client.fetched s1 = Client.fetched s ++ [Client.GET_category "general"]
  ∧ Client.inflight s1 = Client.inflight s
  ∧ Client.categoryPrompts (Client.cache s1)
    = <["general" := []]> (Client.categoryPrompts (Client.cache s))
  ∧ Client.contentContainer (Client.page s1) = Client.PromptCards []
  ∧ Client.loading_visible (Client.page s1) = false
  ∧ Client.fetched s2 = Client.fetched s1
  ∧ Client.inflight s2 = Client.inflight s1
  ∧ Client.contentContainer (Client.page s2) = Client.PromptCards []
  ∧ Client.currentCategoryName (Client.state s2) = Some "Everything".
Proof.
  apply (category_prompts_fetched_once Client.initial "general" "General"
           "Everything" []).
  - unfold Client.own_key, Client.objectPrototypeNames. intros Hin.
    repeat (apply elem_of_cons in Hin as [Hin|Hin]; [discriminate Hin|]).
    by apply elem_of_nil in Hin.
  - reflexivity.
Defined.

(** X17. The detail of a prompt whose identifier names no property
    inherited from [Object.prototype] is fetched once: a first opening sends
    the request, and the answer is stored under the identifier and put
    on display; a later opening fills the overlay from the cache and
    sends nothing. A load that fails stores nothing, shows an alert and
    leaves the overlay as it was, so that the next opening asks the
    server again. *)
Theorem prompt_detail_fetched_once
    (s : Client.Session) (pid : string) (data : Portal.PPrompt) (code : nat) :
  Client.own_key pid →
  Client.prompts (Client.cache s) !! pid = None →
  let opened := Client.openPromptModal pid s in
  let s1 := Client.settle (length (Client.inflight s)) (Client.OkPrompt data)
              opened in
  let s2 := Client.openPromptModal pid (Client.closeModal s1) in
  let failed := Client.settle (length (Client.inflight s)) (Client.NotOk code)
                  opened in
  (Client.fetched opened = Client.fetched s ++ [Client.GET_prompt pid]
   ∧ Client.modal opened = Client.modal s)
  ∧ (Client.prompts (Client.cache s1)
     = <[pid := data]> (Client.prompts (Client.cache s))
     ∧ Client.modal s1
       = {| Client.modalOverlay_visible := true;
            Client.modalTitle := Portal.pp_title data;
            Client.modalDescription := Portal.pp_description data;
            Client.modalPromptContent := Portal.pp_prompt data;
            Client.copyButton_promptId := Some pid |})
  ∧ (Client.fetched s2 = Client.fetched s1
     ∧ Client.inflight s2 = Client.inflight s1
     ∧ Client.modal s2 = Client.modal s1)
  ∧ (Client.cache failed = Client.cache s
     ∧ Client.modal failed = Client.modal s
     ∧ length (Client.alerts failed) = S (length (Client.alerts s))
     ∧ Client.fetched (Client.openPromptModal pid failed)
       = Client.fetched s ++ [Client.GET_prompt pid; Client.GET_prompt pid]).
Proof.
  intros _ Hmiss opened s1 s2 failed.
  assert (opened = Client.fetch (Client.GET_prompt pid)
                     (Client.InOpenPromptModal pid) s) as Hopened.
  { subst opened. unfold Client.openPromptModal. by rewrite Hmiss. }
  assert (s1 = Client.fillModal pid data
                 (Client.with_cache
                    (λ c, {| Client.categories := Client.categories c;
                             Client.categoryPrompts := Client.categoryPrompts c;
                             Client.prompts := <[pid := data]> (Client.prompts c) |})
                    (Client.set_inflight (Client.inflight s) opened))) as Hs1.
  { subst s1. rewrite Hopened. unfold Client.settle. simpl.
    by rewrite newest_awaiting, delete_newest. }
  assert (failed = Client.alert "Не удалось загрузить промт. Попробуйте позже."
                     (Client.set_inflight (Client.inflight s) opened))
    as Hfailed.
  { subst failed. rewrite Hopened. unfold Client.settle. simpl.
    by rewrite newest_awaiting, delete_newest. }
  rewrite Hopened in Hs1, Hfailed.
  clearbody s1 failed opened. subst s1 failed opened. subst s2.
  split; [done|]. split; [done|]. split.
  - unfold Client.openPromptModal. simpl. by rewrite lookup_insert_eq.
  - split; [by destruct s as [? [] ? ? ? ? ? ?]|].
    split; [done|]. split; [simpl; rewrite length_app; simpl; lia|].
    unfold Client.openPromptModal. simpl. rewrite Hmiss. simpl.
    by rewrite <- app_assoc.
Qed.

Lemma prompt_detail_fetched_once_witness :
  let s := Client.initial in
  let opened := Client.openPromptModal "alpha" s in
  let s1 := Client.settle (length (Client.inflight s))
              (Client.OkPrompt Samples.alpha) opened in
  let s2 := Client.openPromptModal "alpha" (Client.closeModal s1) in
  let failed := Client.settle (length (Client.inflight s)) (Client.NotOk 404)
                  opened in
  (Client.fetched opened = Client.fetched s ++ [Client.GET_prompt "alpha"]
   ∧ Client.modal opened = Client.modal s)
  ∧ (Client.prompts (Client.cache s1)
     = <["alpha" := Samples.alpha]> (Client.prompts (Client.cache s))
     ∧ Client.modal s1
       = {| Client.modalOverlay_visible := true;
            Client.modalTitle := Portal.pp_title Samples.alpha;
            Client.modalDescription := Portal.pp_description Samples.alpha;
            Client.modalPromptContent := Portal.pp_prompt Samples.alpha;
            Client.copyButton_promptId := Some "alpha" |})
  ∧ (Client.fetched s2 = Client.fetched s1
     ∧ Client.inflight s2 = Client.inflight s1
     ∧ Client.modal s2 = Client.modal s1)
  ∧ (Client.cache failed = Client.cache s
     ∧ Client.modal failed = Client.modal s
     ∧ length (Client.alerts failed) = S (length (Client.alerts s))
     ∧ Client.fetched (Client.openPromptModal "alpha" failed)
       = Client.fetched s
         ++ [Client.GET_prompt "alpha"; Client.GET_prompt "alpha"]).
Proof.
  apply (prompt_detail_fetched_once Client.initial "alpha" Samples.alpha 404).
  - unfold Client.own_key, Client.objectPrototypeNames. intros Hin.
    repeat (apply elem_of_cons in Hin as [Hin|Hin]; [discriminate Hin|]).
    by apply elem_of_nil in Hin.
  - reflexivity.
Defined.

(** X18. A load of the categories that fails, by a rejection or by a
    status that is not a success, stores nothing and shows the error
    message on an empty page with the loading indicator hidden; the next
    load hides the message and asks the server again. *)
Theorem failed_categories_load_is_retried
    (s : Client.Session) (reply : Client.Reply) :
  Client.categories (Client.cache s) = None →
  reply = Client.NetworkError ∨ (∃ code, reply = Client.NotOk code) →
  let s1 := Client.loadCategories_await reply s in
  let s2 := Client.loadCategories s1 in
  Client.fetched s1 = Client.fetched s ++ [Client.GET_categories]
  ∧ Client.inflight s1 = Client.inflight s
  ∧ Client.cache s1 = Client.cache s
  ∧ Client.page s1
    = {| Client.loading_visible := false;
         Client.errorMessage :=
           Some "Не удалось загрузить категории. Проверьте подключение к серверу.";
         Client.contentContainer := Client.Blank |}
  ∧ Client.fetched s2 = Client.fetched s1 ++ [Client.GET_categories]
  ∧ Client.page s2
    = {| Client.loading_visible := true;
         Client.errorMessage := None;
         Client.contentContainer := Client.Blank |}.
Proof.
  intros Hcache Hreply s1 s2.
  assert (Client.loadCategories s
          = Client.fetch Client.GET_categories Client.InLoadCategories
              (Client.hideError (Client.showLoading s))) as Hload.
  { unfold Client.loadCategories. simpl. by rewrite Hcache. }
  assert (s1 = Client.hideLoading
                 (Client.showError
                    "Не удалось загрузить категории. Проверьте подключение к серверу."
                    (Client.set_inflight (Client.inflight s)
                       (Client.loadCategories s)))) as Hs1.
  { subst s1. unfold Client.loadCategories_await. rewrite Hload. simpl.
    rewrite decide_False.
    2:{ intros Heq. apply (f_equal length) in Heq.
        rewrite length_app in Heq. simpl in Heq. lia. }
    unfold Client.settle. simpl. rewrite newest_awaiting, delete_newest.
    by destruct Hreply as [-> | [code ->]]. }
  rewrite Hload in Hs1. clearbody s1. subst s1. subst s2.
  split; [done|]. split; [done|].
  split; [by destruct s as [? [] ? ? ? ? ? ?]|]. split; [done|].
  unfold Client.loadCategories. simpl. by rewrite Hcache.
Qed.

Lemma failed_categories_load_is_retried_witness :
  let s := Client.initial in
  let s1 := Client.loadCategories_await (Client.NotOk 500) s in
  let s2 := Client.loadCategories s1 in
  Client.fetched s1 = Client.fetched s ++ [Client.GET_categories]
  ∧ Client.inflight s1 = Client.inflight s
  ∧ Client.cache s1 = Client.cache s
  ∧ Client.page s1
    = {| Client.loading_visible := false;
         Client.errorMessage :=
           Some "Не удалось загрузить категории. Проверьте подключение к серверу.";
         Client.contentContainer := Client.Blank |}
  ∧ Client.fetched s2 = Client.fetched s1 ++ [Client.GET_categories]
  ∧ Client.page s2
    = {| Client.loading_visible := true;
         Client.errorMessage := None;
         Client.contentContainer := Client.Blank |}.
Proof.
  apply (failed_categories_load_is_retried Client.initial (Client.NotOk 500)).
  - reflexivity.
  - right. exists 500. reflexivity.
Defined.

(** X19. The retry button goes by [state.currentView], which only a
    successful render changes. After the load of a category has failed
    on the page of the categories, retrying draws the categories again
    from the cache and does not ask for the category; after it has
    failed on the page of another category, retrying asks for the
    category again. *)
Theorem retry_follows_current_view
    (s : Client.Session) (cid cname : string) (reply : Client.Reply)
    (cats : list Portal.PCategory) :
  Client.categoryPrompts (Client.cache s) !! cid = None →
  Client.categories (Client.cache s) = Some cats →
  reply = Client.NetworkError ∨ (∃ code, reply = Client.NotOk code) →
  let failed := Client.settle (length (Client.inflight s)) reply
                  (Client.navigateToCategory cid cname s) in
  Client.currentView (Client.state failed) = Client.currentView (Client.state s)
  ∧ Client.currentCategoryId (Client.state failed) = Some cid
  ∧ Client.errorMessage (Client.page failed)
    = Some "Не удалось загрузить промты. Попробуйте позже."
  ∧ (Client.currentView (Client.state s) = Client.categoriesView →
     Client.fetched (Client.retry failed) = Client.fetched failed
     ∧ Client.contentContainer (Client.page (Client.retry failed))
       = Client.CategoriesGrid cats
     ∧ Client.errorMessage (Client.page (Client.retry failed)) = None)
  ∧ (Client.currentView (Client.state s) = Client.promptsView →
     Client.fetched (Client.retry failed)
     = Client.fetched failed ++ [Client.GET_category cid]).
Proof.
  intros Hmiss Hcats Hreply failed.
  assert (Client.navigateToCategory cid cname s
          = Client.fetch (Client.GET_category cid)
              (Client.InLoadCategoryPrompts cid)
              (Client.hideError
                 (Client.showLoading
                    (Client.set_currentCategory (Some cid) (Some cname) s))))
    as Hnav.
  { unfold Client.navigateToCategory, Client.loadCategoryPrompts. simpl.
    by rewrite Hmiss. }
  assert (failed
          = Client.hideLoading
              (Client.showError "Не удалось загрузить промты. Попробуйте позже."
                 (Client.set_inflight (Client.inflight s)
                    (Client.navigateToCategory cid cname s)))) as Hfailed.
  { subst failed. rewrite Hnav. unfold Client.settle. simpl.
    rewrite newest_awaiting, delete_newest.
    by destruct Hreply as [-> | [code ->]]. }
  rewrite Hnav in Hfailed. clearbody failed. subst failed.
  split; [done|]. split; [done|]. split; [done|]. split.
  - intros Hview. unfold Client.retry. simpl. rewrite Hview.
    unfold Client.loadCategories. simpl. by rewrite Hcats.
  - intros Hview. unfold Client.retry. simpl. rewrite Hview.
    unfold Client.loadCategoryPrompts. simpl. by rewrite Hmiss.
Qed.

Lemma retry_follows_current_view_witness :
  let s := Client.loadCategories_await (Client.OkCategories [Samples.general])
             Client.initial in
  let failed := Client.settle (length (Client.inflight s)) Client.NetworkError
                  (Client.navigateToCategory "general" "General" s) in
  Client.currentView (Client.state failed) = Client.currentView (Client.state s)
  ∧ Client.currentCategoryId (Client.state failed) = Some "general"
  ∧ Client.errorMessage (Client.page failed)
    = Some "Не удалось загрузить промты. Попробуйте позже."
  ∧ (Client.currentView (Client.state s) = Client.categoriesView →
     Client.fetched (Client.retry failed) = Client.fetched failed
     ∧ Client.contentContainer (Client.page (Client.retry failed))
       = Client.CategoriesGrid [Samples.general]
     ∧ Client.errorMessage (Client.page (Client.retry failed)) = None)
  ∧ (Client.currentView (Client.state s) = Client.promptsView →
     Client.fetched (Client.retry failed)
     = Client.fetched failed ++ [Client.GET_category "general"]).
Proof.
  apply (retry_follows_current_view
           (Client.loadCategories_await (Client.OkCategories [Samples.general])
              Client.initial)
           "general" "General" Client.NetworkError [Samples.general]).
  - reflexivity.
  - reflexivity.
  - left. reflexivity.
Defined.

(** The page of the categories, a category that fails to load, a retry:
    the grid of categories, and no second request for the category. *)
Example retry_after_first_failure :
  let s := Client.run [Client.Dom Client.PageLoaded;
                       Client.Settle 0 (Client.OkCategories [Samples.general]);
                       Client.Dom (Client.ClickCategory "general" "General");
                       Client.Settle 0 Client.NetworkError] Client.initial in
  Client.fetched (Client.retry s)
  = [Client.GET_categories; Client.GET_category "general"]
  ∧ Client.contentContainer (Client.page (Client.retry s))
    = Client.CategoriesGrid [Samples.general]
  ∧ Client.currentCategoryId (Client.state (Client.retry s)) = Some "general".
Proof. vm_compute. done. Qed.

Section Plural.

Import Client.

Lemma mod_100_mod_10 (n : nat) : (n mod 100) mod 10 = n mod 10.
Proof.
  rewrite (Nat.div_mod_eq n 100) at 2.
  replace (100 * (n / 100) + n mod 100)
    with (n mod 100 + (10 * (n / 100)) * 10) by lia.
  by rewrite Nat.Div0.mod_add.
Qed.

End Plural.

(** X20. [formatPromptCount] prints the count and the Russian plural of
    its noun: the singular when the count ends in 1 but not in 11, the
    paucal when it ends in 2, 3 or 4 but not in 12, 13 or 14, and the
    genitive plural otherwise. *)
Theorem formatPromptCount_plural (count : nat) :
  Client.formatPromptCount count
  = pretty count +:+ " "
    +:+ (if bool_decide (count mod 10 = 1 ∧ count mod 100 ≠ 11) then "промт"
         else if bool_decide (2 ≤ count mod 10 ≤ 4
                              ∧ ¬ (12 ≤ count mod 100 ≤ 14)) then "промта"
         else "промтов").
Proof.
  unfold Client.formatPromptCount. do 2 f_equal.
  pose proof (mod_100_mod_10 count) as Hmod.
  pose proof (Nat.mod_upper_bound count 10) as H10.
  pose proof (Nat.mod_upper_bound (count mod 100) 10) as H10'.
  assert (count mod 100 = 10 * (count mod 100 / 10) + count mod 10) as Hsplit.
  { rewrite <- Hmod. apply Nat.div_mod_eq. }
  repeat case_bool_decide;
    destruct (11 <=? count mod 100) eqn:H11;
    destruct (count mod 100 <=? 19) eqn:H19;
    destruct (count mod 10 =? 1) eqn:H1;
    destruct (2 <=? count mod 10) eqn:H2;
    destruct (count mod 10 <=? 4) eqn:H4;
    simpl; try reflexivity; exfalso;
    rewrite ?Nat.leb_le, ?Nat.leb_gt, ?Nat.eqb_eq, ?Nat.eqb_neq in *;
    lia.
Qed.

(** 1 промт, 3 промта, 11 промтов, 21 промт, 112 промтов, 0 промтов. *)
Example formatPromptCount_samples :
  map Client.formatPromptCount [1; 3; 11; 21; 112; 0]
  = ["1 промт"; "3 промта"; "11 промтов"; "21 промт"; "112 промтов";
     "0 промтов"].
Proof. vm_compute. done. Qed.

Section ClientInvariants.

Import Client.

Lemma loading_has_reason_grow s s' :
  loading_visible (page s') = loading_visible (page s) →
  (∃ ks, inflight s' = inflight s ++ ks) →
  loading_has_reason s → loading_has_reason s'.
Proof.
  intros Hpage [ks Hks] Hs Hvisible. rewrite Hpage in Hvisible.
  destruct (Hs Hvisible) as (k & Hk & Hload).
  exists k. split; [|done]. rewrite Hks. apply elem_of_app. by left.
Qed.

Lemma loadCategories_reason s : loading_has_reason (loadCategories s).
Proof.
  unfold loadCategories, loading_has_reason. simpl.
  destruct (categories (cache s)); simpl; [done|].
  intros _. exists InLoadCategories. split; [|done].
  apply elem_of_app. right. apply list_elem_of_here.
Qed.

Lemma loadCategoryPrompts_reason cid s :
  loading_has_reason (loadCategoryPrompts cid s).
Proof.
  unfold loadCategoryPrompts, loading_has_reason. simpl.
  destruct (categoryPrompts (cache s) !! cid); simpl; [done|].
  intros _. exists (InLoadCategoryPrompts cid). split; [|done].
  apply elem_of_app. right. apply list_elem_of_here.
Qed.

Lemma dispatch_reason s d :
  loading_has_reason s → loading_has_reason (dispatch s d).
Proof.
  intros Hs.
  destruct d as [|value| | | | |cid cname| |pid|pid cid cname|]; simpl.
  - apply loadCategories_reason.
  - apply (loading_has_reason_grow s); [| |done].
    + unfold handleSearchInput. by repeat case_match.
    + exists []. rewrite app_nil_r.
      by destruct (handleSearchInput_fields value s) as (_ & _ & -> & _).
  - apply (loading_has_reason_grow s); [| |done];
      unfold timeout; destruct (searchTimeout (state s)); try done.
    + by eexists [_].
    + exists []. by rewrite app_nil_r.
  - apply (loading_has_reason_grow s); [done| |done].
    exists []. by rewrite app_nil_r.
  - apply (loading_has_reason_grow s); [done| |done].
    exists []. by rewrite app_nil_r.
  - apply (loading_has_reason_grow s); [done| |done].
    exists []. by rewrite app_nil_r.
  - apply loadCategoryPrompts_reason.
  - apply loadCategories_reason.
  - apply (loading_has_reason_grow s); [| |done];
      unfold openPromptModal; destruct (prompts (cache s) !! pid); try done.
    + exists []. by rewrite app_nil_r.
    + by eexists [_].
  - apply (loading_has_reason_grow s); [| |done];
      unfold openPromptModal; simpl;
      destruct (prompts (cache s) !! pid); try done.
    + exists []. by rewrite app_nil_r.
    + by eexists [_].
  - apply (loading_has_reason_grow s); [done| |done].
    exists []. by rewrite app_nil_r.
Qed.

Lemma settle_reason s i r :
  loading_has_reason s → loading_has_reason (settle i r s).
Proof.
  intros Hs. unfold settle.
  destruct (inflight s !! i) as [k|] eqn:Hi; [|done].
  destruct k as [|cid|pid|query], r as [|code|cats|ps|data|results];
    simpl; try done;
    intros Hvisible; simpl in Hvisible;
    destruct (Hs Hvisible) as (k & Hk & Hload);
    exists k; (split; [|done]); simpl;
    apply elem_of_delete_other with (y := ltac:(first [exact (InOpenPromptModal pid) | exact (InPerformSearch query)]));
    try done; by intros ->.
Qed.

Lemma step_reason s e : loading_has_reason s → loading_has_reason (step s e).
Proof.
  destruct e as [d|i r]; [apply dispatch_reason | apply settle_reason].
Qed.

Lemma run_reason evs s : loading_has_reason s → loading_has_reason (run evs s).
Proof.
  revert s. induction evs as [|e evs IH]; intros s Hs; [done|].
  simpl. apply IH. by apply step_reason.
Qed.

End ClientInvariants.

(** X21. In every run of the page, the loading indicator on display has
    a load of the categories or of a category outstanding behind it:
    once every request has settled, by an answer or by a failure, the
    indicator is hidden. *)
Theorem loading_indicator_has_a_load (evs : list Client.Event) :
  let s := Client.run evs Client.initial in
  (Client.loading_visible (Client.page s) = true →
   ∃ k, k ∈ Client.inflight s ∧ Client.isLoad k = true)
  ∧ (Client.inflight s = [] → Client.loading_visible (Client.page s) = false).
Proof.
  intros s.
  assert (Client.loading_has_reason s) as Hs.
  { apply run_reason. intros Hvisible. discriminate Hvisible. }
  split; [exact Hs|].
  intros Hidle.
  destruct (Client.loading_visible (Client.page s)) eqn:Hvisible; [|done].
  destruct (Hs Hvisible) as (k & Hk & _). rewrite Hidle in Hk.
  by apply elem_of_nil in Hk.
Qed.

Lemma loading_indicator_has_a_load_witness :
  Client.loading_visible
    (Client.page
       (Client.run [Client.Dom Client.PageLoaded;
                    Client.Settle 0 Client.NetworkError] Client.initial))
  = false.
Proof.
  apply (loading_indicator_has_a_load
           [Client.Dom Client.PageLoaded; Client.Settle 0 Client.NetworkError]).
  reflexivity.
Defined.

Section ClientCacheKept.

Import Client.

Lemma cache_kept_refl c : cache_kept c c.
Proof. by repeat split. Qed.

Lemma cache_kept_trans c1 c2 c3 :
  cache_kept c1 c2 → cache_kept c2 c3 → cache_kept c1 c3.
Proof.
  intros (H1 & H2 & H3) (K1 & K2 & K3). repeat split; eauto.
Qed.

(** Only the answers of the server write to the cache. *)
Lemma dispatch_cache s d : cache (dispatch s d) = cache s.
Proof.
  destruct d as [|value| | | | |cid cname| |pid|pid cid cname|]; simpl;
    try done.
  - unfold loadCategories. simpl. by destruct (categories (cache s)).
  - unfold handleSearchInput. by repeat case_match.
  - unfold timeout. by destruct (searchTimeout (state s)).
  - unfold navigateToCategory, loadCategoryPrompts. simpl.
    by destruct (categoryPrompts (cache s) !! cid).
  - unfold navigateToCategories, loadCategories. simpl.
    by destruct (categories (cache s)).
  - unfold openPromptModal. by destruct (prompts (cache s) !! pid).
  - unfold openPromptModal. simpl. by destruct (prompts (cache s) !! pid).
Qed.

Lemma settle_cache_kept s i r : cache_kept (cache s) (cache (settle i r s)).
Proof.
  unfold settle. destruct (inflight s !! i) as [k|]; [|apply cache_kept_refl].
  destruct k as [|cid|pid|query], r as [|code|cats|ps|data|results];
    simpl; try apply cache_kept_refl;
    (split; [|split]); simpl; try done.
  - intros cid' Hcid'. destruct (decide (cid = cid')) as [->|Hne].
    + rewrite lookup_insert_eq. eauto.
    + by rewrite lookup_insert_ne.
  - intros pid' Hpid'. destruct (decide (pid = pid')) as [->|Hne].
    + rewrite lookup_insert_eq. eauto.
    + by rewrite lookup_insert_ne.
Qed.

Lemma step_cache_kept s e : cache_kept (cache s) (cache (step s e)).
Proof.
  destruct e as [d|i r]; simpl.
  - rewrite dispatch_cache. apply cache_kept_refl.
  - apply settle_cache_kept.
Qed.

End ClientCacheKept.

(** X22. The cache is never emptied: through any run of the page, the
    categories stay cached once they are, and so does the entry of every
    category and of every prompt; and no event of the page other than an
    answer of the server writes to the cache. *)
Theorem cache_is_never_evicted (evs : list Client.Event) (s : Client.Session) :
  Client.cache_kept (Client.cache s) (Client.cache (Client.run evs s))
  ∧ ∀ d, Client.cache (Client.dispatch s d) = Client.cache s.
Proof.
  split; [|apply dispatch_cache].
  revert s. induction evs as [|e evs IH]; intros s; [apply cache_kept_refl|].
  simpl. eapply cache_kept_trans; [apply step_cache_kept | apply IH].
Qed.

(** * Further properties of searching *)

Section Refinement.

Lemma occurs_in_trans (a b c : string) :
  occurs_in a b → occurs_in b c → occurs_in a c.
Proof.
  intros (pre1 & post1 & ->) (pre2 & post2 & ->).
  exists (pre2 +:+ pre1), (post1 +:+ post2).
  by rewrite !append_assoc.
Qed.

Lemma occurs_in_length (a b : string) :
  occurs_in a b → String.length a ≤ String.length b.
Proof. intros (pre & post & ->). rewrite !length_append. lia. Qed.

Lemma sublist_filter_implies {A} (f g : A → bool) (l : list A) :
  (∀ x, f x = true → g x = true) →
  sublist (List.filter f l) (List.filter g l).
Proof.
  intros Hfg. induction l as [|x l IH]; simpl; [constructor|].
  destruct (f x) eqn:Hf.
  - rewrite (Hfg x Hf). by constructor.
  - destruct (g x); [by constructor | done].
Qed.

(** The search past its guard, the guard being read on the lower-cased
    query as the handler reads it. *)
Lemma search_eval_guard (w : world Server.Doc) q cats :
  files w !! Server.categoriesPath = Some (Json (Server.CategoriesDoc cats)) →
  2 ≤ String.length (toLowerCase q) →
  fst (run (Server.search (Some q)) w)
  = Some (Server.json
            (Server.JsonPrompts
               (List.filter (Server.matchesQuery (toLowerCase q))
                            (Server.collection w cats)))).
Proof.
  intros Hcats Hlen. unfold Server.search. simpl.
  rewrite truthy_length.
  destruct (String.length (toLowerCase q) =? 0) eqn:H0;
    [apply Nat.eqb_eq in H0; lia|].
  destruct (String.length (toLowerCase q) <? 2) eqn:H2;
    [apply Nat.ltb_lt in H2; lia|].
  simpl. io_unfold. rewrite Hcats. simpl.
  destruct (collectPrompts_eval w cats [] [ReadFile Server.categoriesPath])
    as [log' ->].
  done.
Qed.

Lemma matchesQuery_occurs query query' p :
  occurs_in query query' →
  Server.matchesQuery query' p = true → Server.matchesQuery query p = true.
Proof.
  intros Hocc. unfold Server.matchesQuery.
  rewrite !orb_true_iff, !includes_spec, !existsb_exists.
  setoid_rewrite includes_spec.
  intros [[H | H] | (tag & Htag & H)].
  - left. left. by apply occurs_in_trans with query'.
  - left. right. by apply occurs_in_trans with query'.
  - right. exists tag. split; [done|]. by apply occurs_in_trans with query'.
Qed.

End Refinement.

(** X23. On the ESM server a query that contains another finds no more
    than it: when the lower-cased form of a query has two characters or
    more and occurs in the lower-cased form of a second query, the
    results of the second are among the results of the first, in the
    same order. The prompts of the store are well formed, as
    [types.ts] declares them. *)
Theorem esm_search_narrows_with_longer_query
    (w : world Server.Doc) (q q' : string) (cats : list Category) :
  2 ≤ String.length (toLowerCase q) →
  occurs_in (toLowerCase q) (toLowerCase q') →
  files w !! Server.categoriesPath = Some (Json (Server.CategoriesDoc cats)) →
  ∃ results results',
    fst (run (Server.search (Some q)) w)
    = Some (Server.json (Server.JsonPrompts results))
    ∧ fst (run (Server.search (Some q')) w)
      = Some (Server.json (Server.JsonPrompts results'))
    ∧ sublist results' results.
Proof.
  intros Hlen Hocc Hcats.
  pose proof (occurs_in_length _ _ Hocc) as Hlen'.
  eexists _, _. split; [by apply search_eval_guard|].
  split; [apply search_eval_guard; [done | lia]|].
  apply sublist_filter_implies. intros p.
  by apply matchesQuery_occurs.
Qed.

Lemma esm_search_narrows_with_longer_query_witness :
  ∃ results results',
    fst (run (Server.search (Some "Re")) Samples.esm_world)
    = Some (Server.json (Server.JsonPrompts results))
    ∧ fst (run (Server.search (Some "REVIEW")) Samples.esm_world)
      = Some (Server.json (Server.JsonPrompts results'))
    ∧ sublist results' results.
Proof.
  apply (esm_search_narrows_with_longer_query Samples.esm_world "Re" "REVIEW"
           [Samples.marketing; Samples.coding]).
  - simpl. lia.
  - by exists "", "view".
  - reflexivity.
Defined.

(** X24. Emptying the search field by typing cancels the search that
    was about to be sent; the clear button empties the field and hides
    the panel without cancelling it, and the search is sent when the
    timer fires. *)
Theorem clear_button_keeps_pending_search (s : Client.Session) (value : string) :
  2 ≤ String.length (trim value) →
  let typed := Client.dispatch s (Client.Input value) in
  let emptied := Client.run [Client.Dom (Client.Input "");
                             Client.Dom Client.Timeout] typed in
  let cleared := Client.run [Client.Dom Client.ClickClear;
                             Client.Dom Client.Timeout] typed in
  Client.fetched emptied = Client.fetched s
  ∧ Client.fetched cleared
    = Client.fetched s ++ [Client.GET_search (trim value)]
  ∧ Client.searchInput_value (Client.searchBox cleared) = ""
  ∧ Client.searchResults_visible (Client.searchBox cleared) = false.
Proof.
  intros Hlen typed emptied cleared.
  destruct (handleSearchInput_fields value s) as (Ht & Hf & _).
  apply Nat.leb_le in Hlen. rewrite Hlen in Ht.
  subst emptied cleared typed. simpl.
  unfold Client.timeout. simpl. rewrite Ht. simpl.
  by rewrite Hf.
Qed.

Lemma clear_button_keeps_pending_search_witness :
  let typed := Client.dispatch Client.initial (Client.Input "code") in
  let emptied := Client.run [Client.Dom (Client.Input "");
                             Client.Dom Client.Timeout] typed in
  let cleared := Client.run [Client.Dom Client.ClickClear;
                             Client.Dom Client.Timeout] typed in
  Client.fetched emptied = Client.fetched Client.initial
  ∧ Client.fetched cleared
    = Client.fetched Client.initial ++ [Client.GET_search (trim "code")]
  ∧ Client.searchInput_value (Client.searchBox cleared) = ""
  ∧ Client.searchResults_visible (Client.searchBox cleared) = false.
Proof.
  apply (clear_button_keeps_pending_search Client.initial "code").
  simpl. lia.
Defined.

Section ReactTyping.

Import App.

Lemma typing_step st val :
  view st = home → 2 < String.length val → searchQuery st ≠ val →
  view (handle st (SearchChange val)) = home
  ∧ searchQuery (handle st (SearchChange val)) = val
  ∧ inflight (handle st (SearchChange val))
    = inflight st ++ [searchPrompts val].
Proof.
  intros Hview Hlen Hne. simpl.
  assert (handleSearchChange val st = setSearchQuery val st) as ->.
  { unfold handleSearchChange. apply Nat.ltb_lt in Hlen.
    by rewrite Hlen, decide_True. }
  unfold rerender. rewrite decide_False.
  2:{ unfold deps. simpl. congruence. }
  unfold effect, effectCall. simpl. rewrite Hview.
  apply Nat.ltb_lt in Hlen. by rewrite Hlen.
Qed.

End ReactTyping.

(** X25. The React front end has no debounce: in the home view every
    change of the query to a new value longer than two characters makes
    its own search call at once, so typing sends as many searches as
    there are such changes, in the order typed. *)
Theorem every_long_query_is_searched (vals : list string) (st : App.State) :
  App.view st = App.home →
  Forall (λ val, 2 < String.length val) vals →
  App.each_differs (App.searchQuery st) vals →
  App.inflight (App.run (map (λ val, App.User (App.SearchChange val)) vals) st)
  = App.inflight st ++ map App.searchPrompts vals.
Proof.
  revert st. induction vals as [|val vals IH]; intros st Hview Hlens Hdiff.
  - simpl. by rewrite app_nil_r.
  - apply Forall_cons in Hlens as [Hlen Hlens]. destruct Hdiff as [Hne Hdiff].
    destruct (typing_step st val Hview Hlen Hne) as (Hview' & Hquery & Hcalls).
    cbn [map App.run foldl App.step].
    change (foldl App.step ?a ?l) with (App.run l a).
    rewrite IH; [|done|done|by rewrite Hquery].
    rewrite Hcalls. by rewrite <- app_assoc.
Qed.

Lemma every_long_query_is_searched_witness :
  App.inflight
    (App.run (map (λ val, App.User (App.SearchChange val))
                ["cod"; "code"; "code "]) Samples.at_home)
  = App.inflight Samples.at_home
    ++ map App.searchPrompts ["cod"; "code"; "code "].
Proof.
  apply (every_long_query_is_searched ["cod"; "code"; "code "] Samples.at_home).
  - reflexivity.
  - repeat constructor.
  - simpl. repeat split; discriminate.
Defined.
